(** * Shallow embedding of [scraper.py]: NAV ingestion and indicator engine.

    Python floats are idealised as exact rationals [Q]; Python exceptions
    are explicit results of a small error monad [res].  Python dicts are
    association lists that keep insertion order, with Python's
    assignment semantics (overwrite in place, otherwise append). *)

From Stdlib Require Import String Ascii QArith Qround ZArith NArith Lia Bool List.
From Stdlib Require Import Qabs Lqa Sorting.Permutation Sorting.Sorted.
Import ListNotations.

(* ------------------------------------------------------------------ *)
(** ** Python runtime: exceptions, results, dicts, rounding *)

(** The exceptions the modelled code can raise or catch.  Every class
    but [KeyboardInterrupt] and [SystemExit] derives from [Exception]. *)
Inductive exn :=
| ZeroDivisionError
| ValueError
| KeyError
| AttributeError
| OSError
| ImportError
| KeyboardInterrupt
| SystemExit.

Definition is_Exception (e : exn) : bool :=
  match e with
  | KeyboardInterrupt | SystemExit => false
  | _ => true
  end.

Inductive res (A : Type) : Type :=
| Ok (a : A)
| Err (e : exn).
Arguments Ok {A} a.
Arguments Err {A} e.

Definition bind {A B} (m : res A) (k : A -> res B) : res B :=
  match m with
  | Ok a => k a
  | Err e => Err e
  end.

Notation "x <- m ;; k" := (bind m (fun x => k))
  (at level 61, m at next level, right associativity).

(** Python's [a / b]: raises [ZeroDivisionError] on a zero divisor. *)
Definition py_div (a b : Q) : res Q :=
  if Qeq_bool b 0 then Err ZeroDivisionError else Ok (a / b).

Definition Qltb (a b : Q) : bool := negb (Qle_bool b a).

(** Python's [max(a, b)]: [a] unless [b > a]. *)
Definition py_max (a b : Q) : Q := if Qltb a b then b else a.

(** Python truthiness of a number. *)
Definition truthy (x : Q) : bool := negb (Qeq_bool x 0).

Definition sum (l : list Q) : Q := fold_right Qplus 0 l.

Definition Qnat (n : nat) : Q := inject_Z (Z.of_nat n).

(** Round half to even, the rule of Python's [round]. *)
Definition round_half_even (x : Q) : Z :=
  let f := Qfloor x in
  match Qcompare (x - inject_Z f) (1 # 2) with
  | Lt => f
  | Gt => f + 1
  | Eq => if Z.even f then f else f + 1
  end.

(** [round(x, n)]. *)
Definition py_round (n : nat) (x : Q) : Q :=
  let p := inject_Z (10 ^ Z.of_nat n) in
  inject_Z (round_half_even (x * p)) / p.

(** [math.sqrt]: [ValueError] on a negative argument; otherwise a
    rational approximation to eight decimals (no claim depends on the
    digits). *)
Definition math_sqrt (x : Q) : res Q :=
  if Qltb x 0 then Err ValueError
  else Ok (Qmake (Z.sqrt (Qnum x * Zpos (Qden x) * 10 ^ 16))
                 (Qden x * 100000000)%positive).

Fixpoint foldM {A B} (f : A -> B -> res A) (l : list B) (a : A) : res A :=
  match l with
  | [] => Ok a
  | x :: l' => a' <- f a x ;; foldM f l' a'
  end.

Fixpoint mapM {A B} (f : A -> res B) (l : list A) : res (list B) :=
  match l with
  | [] => Ok []
  | x :: l' => y <- f x ;; ys <- mapM f l' ;; Ok (y :: ys)
  end.

(** Python dicts with string keys. *)
Module PyDict.
Definition t (V : Type) := list (string * V).

(** [d[k] = v] *)
Fixpoint set {V} (d : t V) (k : string) (v : V) : t V :=
  match d with
  | [] => [(k, v)]
  | (k', v') :: d' =>
      if String.eqb k k' then (k', v) :: d' else (k', v') :: set d' k v
  end.

(** [d.get(k)] *)
Fixpoint get {V} (d : t V) (k : string) : option V :=
  match d with
  | [] => None
  | (k', v') :: d' => if String.eqb k k' then Some v' else get d' k
  end.

Definition keys {V} (d : t V) : list string := map fst d.
End PyDict.

(** A stable insertion sort: [le a b] says [a] may precede [b].  Python's
    [sorted] is stable, and every stable sort by the same total preorder
    returns the same list. *)
Section Sort.
Context {A : Type} (le : A -> A -> bool).

Fixpoint insert_by (x : A) (l : list A) : list A :=
  match l with
  | [] => [x]
  | y :: l' => if le x y then x :: y :: l' else y :: insert_by x l'
  end.

Fixpoint sort_by (l : list A) : list A :=
  match l with
  | [] => []
  | x :: l' => insert_by x (sort_by l')
  end.
End Sort.

(** Python list indexing helpers. *)
Definition lastn {A} (n : nat) (l : list A) : list A := skipn (length l - n) l.

(* ------------------------------------------------------------------ *)
(** ** Indicator calculations *)

Definition deltas (prices : list Q) : list Q :=
  map (fun i => nth i prices 0 - nth (i - 1) prices 0) (seq 1 (length prices - 1)).

(** [calculate_rsi(prices, period)] *)
Definition calculate_rsi (prices : list Q) (period : nat) : res (option Q) :=
  if Nat.ltb (length prices) (period + 1) then Ok None else
  let gains := map (fun d => py_max d 0) (deltas prices) in
  let losses := map (fun d => py_max (- d) 0) (deltas prices) in
  avg_gain <- py_div (sum (firstn period gains)) (Qnat period) ;;
  avg_loss <- py_div (sum (firstn period losses)) (Qnat period) ;;
  avgs <- foldM (fun (acc : Q * Q) i =>
                   ag <- py_div (fst acc * (Qnat period - 1) + nth i gains 0) (Qnat period) ;;
                   al <- py_div (snd acc * (Qnat period - 1) + nth i losses 0) (Qnat period) ;;
                   Ok (ag, al))
                (seq period (length gains - period)) (avg_gain, avg_loss) ;;
  if Qeq_bool (snd avgs) 0 then Ok (Some 100) else
  rs <- py_div (fst avgs) (snd avgs) ;;
  q <- py_div 100 (1 + rs) ;;
  Ok (Some (py_round 2 (100 - q))).

(** [calculate_ma(prices, period)] *)
Definition calculate_ma (prices : list Q) (period : nat) : res (option Q) :=
  if Nat.ltb (length prices) period then Ok None else
  m <- py_div (sum (lastn period prices)) (Qnat period) ;;
  Ok (Some (py_round 4 m)).

(** [calculate_pct_change(prices, days)] *)
Definition calculate_pct_change (prices : list Q) (days : nat) : res (option Q) :=
  if Nat.ltb (length prices) (days + 1) then Ok None else
  let old := nth (length prices - (days + 1)) prices 0 in
  let new := nth (length prices - 1) prices 0 in
  if Qeq_bool old 0 then Ok None else
  r <- py_div (new - old) old ;;
  Ok (Some (py_round 2 (r * 100))).

(** [calculate_volatility(prices, period)] *)
Definition calculate_volatility (prices : list Q) (period : nat) : res (option Q) :=
  if Nat.ltb (length prices) (period + 1) then Ok None else
  returns <- mapM (fun i => py_div (nth i prices 0 - nth (i - 1) prices 0)
                                   (nth (i - 1) prices 0))
                  (seq (length prices - period) period) ;;
  mean <- py_div (sum returns) (Qnat (length returns)) ;;
  variance <- py_div (sum (map (fun r => (r - mean) ^ 2) returns))
                     (Qnat (length returns)) ;;
  s <- math_sqrt variance ;;
  Ok (Some (py_round 2 (s * 100))).

(** [rsi_signal(rsi)] *)
Definition rsi_signal (rsi : option Q) : string :=
  match rsi with
  | None => "N/A"
  | Some r =>
      if Qle_bool 70 r then "OVERBOUGHT"
      else if Qle_bool r 30 then "OVERSOLD"
      else if Qle_bool 55 r then "BULLISH"
      else if Qle_bool r 45 then "BEARISH"
      else "NEUTRAL"
  end%string.

(** [trend_signal(price, ma20, ma50)] *)
Definition trend_signal (price : Q) (ma20 ma50 : option Q) : string :=
  match ma20, ma50 with
  | Some a, Some b =>
      if Qltb a price && Qltb b a then "UPTREND"
      else if Qltb price a && Qltb a b then "DOWNTREND"
      else "SIDEWAYS"
  | _, _ => "N/A"
  end%string.

(* ------------------------------------------------------------------ *)
(** ** Observations and the per-fund indicator snapshot *)

(** One [{"date": ..., "nav": ...}] record. *)
Record obs := { date : string; nav : Q }.

Definition date_le (a b : obs) : bool := String.leb (date a) (date b).

(** The dict returned by [compute_indicators]; [fund_name] is the key the
    pipeline adds afterwards ([None] until then). *)
Record snapshot := {
  fund_code : string;
  snap_date : string;
  snap_nav : Q;
  rsi_14 : option Q;
  snap_rsi_signal : string;
  ma5 : option Q;
  ma20 : option Q;
  ma50 : option Q;
  trend : string;
  pct_1d : option Q;
  pct_1w : option Q;
  pct_1m : option Q;
  pct_3m : option Q;
  pct_6m : option Q;
  pct_1y : option Q;
  volatility_20d : option Q;
  data_points : nat;
  fund_name : option string
}.

(** [compute_indicators(fund_code, nav_history)]; the dict literal's
    values are evaluated in source order, so the first exception wins. *)
Definition compute_indicators (code : string) (nav_history : list obs)
  : res (option snapshot) :=
  if Nat.ltb (length nav_history) 5 then Ok None else
  let sorted_nav := sort_by date_le nav_history in
  let prices := map nav sorted_nav in
  let current_price := last prices 0 in
  let current_date := date (last sorted_nav {| date := ""; nav := 0 |}) in
  rsi <- calculate_rsi prices 14 ;;
  rsi' <- calculate_rsi prices 14 ;;
  m5 <- calculate_ma prices 5 ;;
  m20 <- calculate_ma prices 20 ;;
  m50 <- calculate_ma prices 50 ;;
  m20' <- calculate_ma prices 20 ;;
  m50' <- calculate_ma prices 50 ;;
  p1d <- calculate_pct_change prices 1 ;;
  p1w <- calculate_pct_change prices 5 ;;
  p1m <- calculate_pct_change prices 21 ;;
  p3m <- calculate_pct_change prices 63 ;;
  p6m <- calculate_pct_change prices 126 ;;
  p1y <- calculate_pct_change prices 252 ;;
  vol <- calculate_volatility prices 20 ;;
  Ok (Some {| fund_code := code; snap_date := current_date; snap_nav := current_price;
              rsi_14 := rsi; snap_rsi_signal := rsi_signal rsi';
              ma5 := m5; ma20 := m20; ma50 := m50;
              trend := trend_signal current_price m20' m50';
              pct_1d := p1d; pct_1w := p1w; pct_1m := p1m; pct_3m := p3m;
              pct_6m := p6m; pct_1y := p1y; volatility_20d := vol;
              data_points := length prices; fund_name := None |}).

(* ------------------------------------------------------------------ *)
(** ** The NAV fetcher and the history merge of [run_daily_pipeline] *)

(** An entry of the mstarpy NAV list; [None] is a missing key. *)
Record raw_record := { raw_date : option string; raw_nav : option Q }.

Record fund := { name : string; morningstar_id : string; code : string }.

(** [fetch_nav_from_morningstar(fund)].  [nav_response] is the outcome of
    the mstarpy calls inside the [try] block (import, search, download);
    the [except Exception] handler turns an [Exception] into [[]]. *)
Definition fetch_nav_from_morningstar (nav_response : res (list raw_record))
  : res (list obs) :=
  let body :=
    nav_data <- nav_response ;;
    Ok (map (fun r => {| date := match raw_date r with Some d => d | None => "" end;
                         nav := match raw_nav r with Some v => v | None => 0 end |})
            nav_data) in
  match body with
  | Ok result => Ok result
  | Err e => if is_Exception e then Ok [] else Err e
  end.

Definition dict_of_obs (d : PyDict.t Q) (rs : list obs) : PyDict.t Q :=
  fold_left (fun d r => PyDict.set d (date r) (nav r)) rs d.

Definition key_le {V} (a b : string * V) : bool := String.leb (fst a) (fst b).

(** Lines 357-364: [existing = {r["date"]: r["nav"] for r in ...}], the
    overwrites, and [sorted(existing.items())].  The keys of a dict are
    distinct, so sorting the [(date, nav)] tuples is sorting by date. *)
Definition merge_batch (existing_series nav_data : list obs) : list obs :=
  let existing := dict_of_obs (dict_of_obs [] existing_series) nav_data in
  map (fun kv => {| date := fst kv; nav := snd kv |}) (sort_by key_le existing).

(** Lines 355-364 for one fund: the merge runs only [if nav_data]. *)
Definition merge (existing_series nav_data : list obs) : list obs :=
  match nav_data with
  | [] => existing_series
  | _ :: _ => merge_batch existing_series nav_data
  end.

Definition get_or_nil {V} (d : PyDict.t (list V)) (k : string) : list V :=
  match PyDict.get d k with Some l => l | None => [] end.

(** The pipeline state threaded through the per-fund loop. *)
Record pipeline_state := {
  all_nav_history : PyDict.t (list obs);
  all_indicators : list snapshot
}.

Definition set_fund_name (s : snapshot) (n : string) : snapshot :=
  {| fund_code := fund_code s; snap_date := snap_date s; snap_nav := snap_nav s;
     rsi_14 := rsi_14 s; snap_rsi_signal := snap_rsi_signal s;
     ma5 := ma5 s; ma20 := ma20 s; ma50 := ma50 s; trend := trend s;
     pct_1d := pct_1d s; pct_1w := pct_1w s; pct_1m := pct_1m s;
     pct_3m := pct_3m s; pct_6m := pct_6m s; pct_1y := pct_1y s;
     volatility_20d := volatility_20d s; data_points := data_points s;
     fund_name := Some n |}.

(** One iteration of the Step 1 loop (lines 350-370). *)
Definition pipeline_step (f : fund) (nav_response : res (list raw_record))
  (st : pipeline_state) : res pipeline_state :=
  nav_data <- fetch_nav_from_morningstar nav_response ;;
  let hist :=
    match nav_data with
    | [] => all_nav_history st
    | _ :: _ => PyDict.set (all_nav_history st) (code f)
                  (merge_batch (get_or_nil (all_nav_history st) (code f)) nav_data)
    end in
  indicators <- compute_indicators (code f) (get_or_nil hist (code f)) ;;
  Ok {| all_nav_history := hist;
        all_indicators :=
          match indicators with
          | Some i => all_indicators st ++ [set_fund_name i (name f)]
          | None => all_indicators st
          end |}.

(* ------------------------------------------------------------------ *)
(** ** Capital flow proxy *)

Fixpoint digits_aux (fuel : nat) (n : N) (acc : string) : string :=
  match fuel with
  | O => acc
  | S fuel' =>
      let acc' := String (ascii_of_N (48 + N.modulo n 10)) acc in
      if N.ltb n 10 then acc' else digits_aux fuel' (N.div n 10) acc'
  end.

Definition N_to_decimal (n : N) : string := digits_aux (S (N.size_nat n)) n "".

(** [f"{x:.1f}"]: the sign of a negative value is kept even when it
    rounds to [0.0]. *)
Definition format_1f (x : Q) : string :=
  let m := round_half_even (Qabs x * 10) in
  ((if Qltb x 0 then "-" else "") ++ N_to_decimal (Z.to_N (m / 10)) ++ "."
   ++ N_to_decimal (Z.to_N (m mod 10)))%string.

(** The value stored under a fund code by [compute_flow_proxy]. *)
Record flow_entry := {
  signal : string;
  strength : Z;
  vs_category : Q;
  note : string
}.

Definition has_pct_1m (f : snapshot) : bool :=
  match pct_1m f with Some _ => true | None => false end.

(** [f["pct_1m"]] on a fund of [valid] (never [None] there). *)
Definition pct_1m_value (f : snapshot) : Q :=
  match pct_1m f with Some x => x | None => 0 end.

Definition flow_valid (indicators_list : list snapshot) : list snapshot :=
  filter has_pct_1m indicators_list.

(** Line 259: [sorted(returns_1m)[len(returns_1m) // 2]]. *)
Definition flow_median (indicators_list : list snapshot) : Q :=
  let returns_1m := map pct_1m_value (flow_valid indicators_list) in
  nth (Nat.div (length returns_1m) 2) (sort_by Qle_bool returns_1m) 0.

(** The signal and strength of lines 264-272. *)
Definition classify_flow (diff : Q) : string * Z :=
  (if Qltb (3 # 2) diff then ("INFLOW", Z.min (Qfloor (Qabs diff / (1 # 2))) 5)
  else if Qltb diff (- (3 # 2)) then ("OUTFLOW", Z.min (Qfloor (Qabs diff / (1 # 2))) 5)
  else ("NEUTRAL", 1%Z))%string.

Definition flow_entry_of (diff : Q) : flow_entry :=
  {| signal := fst (classify_flow diff);
     strength := snd (classify_flow diff);
     vs_category := py_round 2 diff;
     note := ((if Qltb 0 diff then "+" else "") ++ format_1f diff
              ++ "% vs category median")%string |}.

(** [compute_flow_proxy(indicators_list)]; every snapshot dict is
    non-empty, so the [if f] test is always true. *)
Definition compute_flow_proxy (indicators_list : list snapshot) : PyDict.t flow_entry :=
  match flow_valid indicators_list with
  | [] => []
  | _ :: _ =>
      let median_return := flow_median indicators_list in
      fold_left (fun d f => PyDict.set d (fund_code f)
                              (flow_entry_of (pct_1m_value f - median_return)))
                (flow_valid indicators_list) []
  end.

(* ------------------------------------------------------------------ *)
(** ** Momentum ranking *)

(** The unrounded [score] of lines 294-302. *)
Definition momentum_score (f : snapshot) : Q :=
  let s1 := match pct_1w f with
            | Some x => if truthy x then 0 + x * (4 # 10) else 0
            | None => 0 end in
  let s2 := match pct_1m f with
            | Some x => if truthy x then s1 + x * (4 # 10) else s1
            | None => s1 end in
  match rsi_14 f with
  | Some r => if truthy r then s2 + (r - 50) / 50 * 20 * (2 # 10) else s2
  | None => s2
  end.

Record rank_entry := { rank : nat; score : Q }.

Definition scoreable (indicators_list : list snapshot) : list (string * Q) :=
  map (fun f => (fund_code f, py_round 4 (momentum_score f))) indicators_list.

(** [scoreable.sort(key=score, reverse=True)]: stable, descending. *)
Definition score_ge (a b : string * Q) : bool := Qle_bool (snd b) (snd a).

Fixpoint enumerate_from {A} (i : nat) (l : list A) : list (nat * A) :=
  match l with
  | [] => []
  | x :: l' => (i, x) :: enumerate_from (S i) l'
  end.

(** [rank_funds(indicators_list)] *)
Definition rank_funds (indicators_list : list snapshot) : PyDict.t rank_entry :=
  let sorted := sort_by score_ge (scoreable indicators_list) in
  fold_left (fun d (ie : nat * (string * Q)) =>
               PyDict.set d (fst (snd ie)) {| rank := S (fst ie); score := snd (snd ie) |})
            (enumerate_from 0 sorted) [].

(* ------------------------------------------------------------------ *)
(** ** Dashboard (Step 4) *)

Record dashboard_fund := {
  d_code : string;
  d_name : string;
  d_nav : Q;
  d_date : string;
  d_pct_1d : option Q;
  d_pct_1w : option Q;
  d_pct_1m : option Q;
  d_pct_3m : option Q;
  d_pct_1y : option Q;
  d_rsi_14 : option Q;
  d_rsi_signal : string;
  d_ma5 : option Q;
  d_ma20 : option Q;
  d_ma50 : option Q;
  d_trend : string;
  d_volatility : option Q;
  flow_signal : string;
  flow_vs_category : option Q;
  flow_note : string;
  momentum_rank : option nat;
  d_momentum_score : option Q;
  top_holdings : list string
}.

Definition opt_map {A B} (f : A -> B) (o : option A) : option B :=
  match o with Some a => Some (f a) | None => None end.

(** The composite record of lines 408-431; [flow_proxy.get(code, {})]
    followed by [.get(key, default)]. *)
Definition dashboard_record (flow_proxy : PyDict.t flow_entry)
  (rankings : PyDict.t rank_entry) (all_holdings : PyDict.t (list string))
  (ind : snapshot) : dashboard_fund :=
  let c := fund_code ind in
  {| d_code := c;
     d_name := match fund_name ind with Some n => n | None => c end;
     d_nav := snap_nav ind; d_date := snap_date ind;
     d_pct_1d := pct_1d ind; d_pct_1w := pct_1w ind; d_pct_1m := pct_1m ind;
     d_pct_3m := pct_3m ind; d_pct_1y := pct_1y ind;
     d_rsi_14 := rsi_14 ind; d_rsi_signal := snap_rsi_signal ind;
     d_ma5 := ma5 ind; d_ma20 := ma20 ind; d_ma50 := ma50 ind;
     d_trend := trend ind; d_volatility := volatility_20d ind;
     flow_signal := match PyDict.get flow_proxy c with
                    | Some e => signal e | None => "N/A"%string end;
     flow_vs_category := opt_map vs_category (PyDict.get flow_proxy c);
     flow_note := match PyDict.get flow_proxy c with
                  | Some e => note e | None => ""%string end;
     momentum_rank := opt_map rank (PyDict.get rankings c);
     d_momentum_score := opt_map score (PyDict.get rankings c);
     top_holdings := firstn 5 (get_or_nil all_holdings c) |}.

Record dashboard := {
  total_funds : nat;
  funds : list dashboard_fund;
  top_gainers_1d : list dashboard_fund;
  top_losers_1d : list dashboard_fund;
  top_momentum : list dashboard_fund;
  oversold_funds : list dashboard_fund;
  inflow_signals : list dashboard_fund
}.

(** [x.get("momentum_rank") or 999] *)
Definition rank_key (f : dashboard_fund) : nat :=
  match momentum_rank f with Some (S n) => S n | _ => 999 end.

Definition pct_1d_truthy (f : dashboard_fund) : bool :=
  match d_pct_1d f with Some x => truthy x | None => false end.

Definition pct_1d_value (f : dashboard_fund) : Q :=
  match d_pct_1d f with Some x => x | None => 0 end.

(** [f.get("rsi_14") and f["rsi_14"] <= 35] *)
Definition oversold_pred (f : dashboard_fund) : bool :=
  match d_rsi_14 f with
  | Some r => truthy r && Qle_bool r 35
  | None => false
  end.

(** Steps 3 and 4 of [run_daily_pipeline] (lines 397-453). *)
Definition build_dashboard (all_indicators : list snapshot)
  (all_holdings : PyDict.t (list string)) : dashboard :=
  let flow_proxy := compute_flow_proxy all_indicators in
  let rankings := rank_funds all_indicators in
  let dashboard_funds :=
    sort_by (fun a b => Nat.leb (rank_key a) (rank_key b))
            (map (dashboard_record flow_proxy rankings all_holdings) all_indicators) in
  let movers := filter pct_1d_truthy dashboard_funds in
  {| total_funds := length dashboard_funds;
     funds := dashboard_funds;
     top_gainers_1d :=
       firstn 5 (sort_by (fun a b => Qle_bool (pct_1d_value b) (pct_1d_value a)) movers);
     top_losers_1d :=
       firstn 5 (sort_by (fun a b => Qle_bool (pct_1d_value a) (pct_1d_value b)) movers);
     top_momentum := firstn 5 dashboard_funds;
     oversold_funds := filter oversold_pred dashboard_funds;
     inflow_signals := filter (fun f => String.eqb (flow_signal f) "INFLOW") dashboard_funds |}.

(* ------------------------------------------------------------------ *)
(** ** Holdings, and the loops of Steps 1 and 2 *)

(** The [FUNDS] table (lines 30-61). *)
Definition FUNDS : list fund :=
  [{| name := "Public Growth Fund"; morningstar_id := "0P0000A4GC"; code := "PGF" |};
   {| name := "Public Equity Fund"; morningstar_id := "0P0000A4GB"; code := "PEF" |};
   {| name := "Public SmallCap Fund"; morningstar_id := "0P0000A4GH"; code := "PSCF" |};
   {| name := "Public Index Fund"; morningstar_id := "0P0000A4GD"; code := "PIF" |};
   {| name := "Public Aggressive Growth Fund"; morningstar_id := "0P0000A4GA"; code := "PAGF" |};
   {| name := "Public Savings Fund"; morningstar_id := "0P0000A4GJ"; code := "PSF" |};
   {| name := "Public Regular Savings Fund"; morningstar_id := "0P0000A4GI"; code := "PRSF" |};
   {| name := "Public Enterprises Growth Fund"; morningstar_id := "0P0000A4GE"; code := "PEGF" |};
   {| name := "Public Far-East Select Fund"; morningstar_id := "0P0000BVPZ"; code := "PFESF" |};
   {| name := "Public Far-East Dividend Fund"; morningstar_id := "0P0000BVPY"; code := "PFEDF" |};
   {| name := "Public ASEAN Growth Fund"; morningstar_id := "0P0000BVPX"; code := "PASF" |};
   {| name := "Public Asia Ittikal Fund"; morningstar_id := "0P0000A4GF"; code := "PAIF" |};
   {| name := "Public Islamic Equity Fund"; morningstar_id := "0P0000A4GG"; code := "PIEF" |};
   {| name := "Public Islamic Growth Fund"; morningstar_id := "0P0000BVPW"; code := "PIGF" |};
   {| name := "Public Islamic Opportunities Fund"; morningstar_id := "0P0000BVPV"; code := "PIOF" |};
   {| name := "Public Islamic Dividend Fund"; morningstar_id := "0P0000BVPU"; code := "PIDF" |};
   {| name := "Public China Titans Fund"; morningstar_id := "0P0000BVPT"; code := "PCTF" |};
   {| name := "Public Regional Sector Fund"; morningstar_id := "0P0000BVPS"; code := "PRSF2" |};
   {| name := "Public Global Select Fund"; morningstar_id := "0P0000BVPR"; code := "PGSF" |};
   {| name := "Public Global Titans Fund"; morningstar_id := "0P0000BVPQ"; code := "PGTF" |};
   {| name := "PB Growth Fund"; morningstar_id := "0P0000BVPP"; code := "PBGF" |};
   {| name := "PB Equity Fund"; morningstar_id := "0P0000BVPO"; code := "PBEF" |};
   {| name := "PB Asia Equity Fund"; morningstar_id := "0P0000BVPN"; code := "PBAEF" |};
   {| name := "Public South-East Asia Select"; morningstar_id := "0P0000BVPM"; code := "PSEAS" |};
   {| name := "Public Emerging Opportunities"; morningstar_id := "0P0000BVPL"; code := "PEOF" |};
   {| name := "Public Islamic ASEAN Growth"; morningstar_id := "0P0000BVPK"; code := "PIAG" |};
   {| name := "Public Islamic Enterprises Eq"; morningstar_id := "0P0000BVPJ"; code := "PIEEF" |};
   {| name := "Public e-Islamic Sustainable"; morningstar_id := "0P0000BVPI"; code := "PEIS" |};
   {| name := "PB Asia Pacific Dividend Fund"; morningstar_id := "0P0000BVPH"; code := "PBAPDF" |};
   {| name := "Public Focus Select Fund"; morningstar_id := "0P0000BVPG"; code := "PFSF" |}].

(** The [weighting] cell of a holdings row: a number, or a value that
    [float()] rejects ([ValueError] or [TypeError], both [Exception]s). *)
Inductive weight_cell :=
| WNum (q : Q)
| WBad.

(** A row of the mstarpy holdings table; [None] is a missing column.
    The name and ticker cells are strings, which [str()] returns as they
    are. *)
Record holding_row := {
  row_security_name : option string;
  row_ticker : option string;
  row_weighting : option weight_cell
}.

(** One entry of [top_holdings]. *)
Record holding := { h_name : string; h_ticker : string; weight_pct : Q }.

(** The dict built for one row (lines 228-232). *)
Definition holding_of_row (row : holding_row) : res holding :=
  w <- match row_weighting row with
       | None => Ok 0
       | Some (WNum q) => Ok q
       | Some WBad => Err ValueError
       end ;;
  Ok {| h_name := match row_security_name row with Some s => s | None => "" end;
        h_ticker := match row_ticker row with Some s => s | None => "" end;
        weight_pct := py_round 2 w |}.

(** [fetch_holdings_from_morningstar(fund)].  [holdings_response] is the
    outcome of the mstarpy calls ([None] for a [None] table). *)
Definition fetch_holdings_from_morningstar (holdings_response : res (option (list holding_row)))
  : res (list holding) :=
  let body :=
    holdings_df <- holdings_response ;;
    match holdings_df with
    | None => Ok []
    | Some [] => Ok []
    | Some rows => mapM holding_of_row (firstn 10 rows)
    end in
  match body with
  | Ok result => Ok result
  | Err e => if is_Exception e then Ok [] else Err e
  end.

(** The values of [holdings.json]: the ["_meta"] dict and the per-fund
    dicts written by Step 2. *)
Inductive hval :=
| HMeta (last_fetch_month : option string)
| HEntry (last_updated : string) (stocks : list holding).

(** [all_holdings.get("_meta", {}).get("last_fetch_month", "")] *)
Definition holdings_last_fetch (all_holdings : PyDict.t hval) : string :=
  match PyDict.get all_holdings "_meta" with
  | Some (HMeta (Some m)) => m
  | _ => ""
  end.

(** Step 2 of [run_daily_pipeline] (lines 373-391); [holdings_response f]
    is what mstarpy gives for fund [f]. *)
Definition refresh_holdings (current_month today : string)
  (holdings_response : fund -> res (option (list holding_row)))
  (funds : list fund) (all_holdings : PyDict.t hval) : res (PyDict.t hval) :=
  if String.eqb (holdings_last_fetch all_holdings) current_month then Ok all_holdings
  else
    foldM (fun h f =>
             holdings <- fetch_holdings_from_morningstar (holdings_response f) ;;
             Ok (match holdings with
                 | [] => h
                 | _ :: _ => PyDict.set h (code f) (HEntry today holdings)
                 end))
          (firstn 10 funds)
          (PyDict.set all_holdings "_meta" (HMeta (Some current_month))).

(** The Step 1 loop (lines 350-370) over [funds]; [nav_response f] is
    what mstarpy gives for fund [f]. *)
Definition step1 (nav_response : fund -> res (list raw_record)) (funds : list fund)
  (st : pipeline_state) : res pipeline_state :=
  foldM (fun st f => pipeline_step f (nav_response f) st) funds st.

(* ------------------------------------------------------------------ *)
(** ** Definitions following the spec's words (for refinement claims) *)

Definition gains_of (prices : list Q) : list Q := map (fun d => py_max d 0) (deltas prices).
Definition losses_of (prices : list Q) : list Q := map (fun d => py_max (- d) 0) (deltas prices).

(** Wilder smoothing: [avg = (avg*(13) + new)/14] for each later step. *)
Definition wilder (seed : Q) (news : list Q) : Q :=
  fold_left (fun avg x => (avg * 13 + x) / 14) news seed.

(** RSI(14) of §4.3: seeded by the mean of the first 14 gains/losses;
    100 when the average loss is zero; else [100 - 100/(1 + rs)]
    rounded to 2 decimals; absent below 15 values. *)
Definition rsi_spec (prices : list Q) : option Q :=
  if Nat.ltb (length prices) 15 then None else
  let avg_gain := wilder (sum (firstn 14 (gains_of prices)) / 14) (skipn 14 (gains_of prices)) in
  let avg_loss := wilder (sum (firstn 14 (losses_of prices)) / 14) (skipn 14 (losses_of prices)) in
  if Qeq_bool avg_loss 0 then Some 100
  else Some (py_round 2 (100 - 100 / (1 + avg_gain / avg_loss))).

Definition opt0 (o : option Q) : Q := match o with Some x => x | None => 0 end.

(** The composite score of §4.4: absent or zero inputs contribute 0. *)
Definition spec_score (f : snapshot) : Q :=
  (4 # 10) * opt0 (pct_1w f) + (4 # 10) * opt0 (pct_1m f)
  + (2 # 10) * (match rsi_14 f with
                | Some r => if truthy r then (r - 50) / 50 * 20 else 0
                | None => 0
                end).

(** The value a batch gives to a date: its last observation there. *)
Definition last_value (batch : list obs) (d : string) : option Q :=
  fold_left (fun acc r => if String.eqb (date r) d then Some (nav r) else acc) batch None.

Definition date_lt (a b : obs) : Prop := String.compare (date a) (date b) = Lt.

(** The Series invariant: strictly increasing by date. *)
Definition series_ok (s : list obs) : Prop := StronglySorted date_lt s.

Definition non_decreasing (prices : list Q) : Prop :=
  forall i, (S i < length prices)%nat -> nth i prices 0 <= nth (S i) prices 0.

(* ------------------------------------------------------------------ *)
(** ** Concrete inputs *)

Definition jan_2024 (d : nat) : string :=
  ("2024-01-" ++ (if Nat.ltb d 10 then "0" else "") ++ N_to_decimal (N.of_nat d))%string.

(** A snapshot with only the fields the cross-sectional stage reads. *)
Definition mk_snapshot (c : string) (w m r : option Q) : snapshot :=
  {| fund_code := c; snap_date := jan_2024 31; snap_nav := 1; rsi_14 := r;
     snap_rsi_signal := rsi_signal r; ma5 := None; ma20 := None; ma50 := None;
     trend := "N/A"%string; pct_1d := None; pct_1w := w; pct_1m := m; pct_3m := None;
     pct_6m := None; pct_1y := None; volatility_20d := None; data_points := 22;
     fund_name := None |}.

(** The two funds of the spec's end-to-end scenario. *)
Definition fund_A : snapshot := mk_snapshot "A" (Some 2) (Some 3) (Some 60).
Definition fund_B : snapshot := mk_snapshot "B" (Some (-1)) (Some (-2)) (Some 40).

(** A fund with only 10 observations: no 1-month change yet. *)
Definition fund_C : snapshot := mk_snapshot "C" (Some 1) None (Some 55).

(** Twenty-one daily NAVs, the first of which is 0. *)
Definition zero_first_history : list obs :=
  map (fun i => {| date := jan_2024 (S i); nav := if Nat.eqb i 0 then 0 else 1 |})
      (seq 0 21).

(** The same data as mstarpy records; the first lacks its "nav" key. *)
Definition zero_first_response : list raw_record :=
  map (fun i => {| raw_date := Some (jan_2024 (S i));
                   raw_nav := if Nat.eqb i 0 then None else Some 1 |})
      (seq 0 21).

Definition PGF : fund :=
  {| name := "Public Growth Fund"; morningstar_id := "0P0000A4GC"; code := "PGF" |}.

Definition empty_state : pipeline_state := {| all_nav_history := []; all_indicators := [] |}.

(** Fifteen strictly decreasing NAVs. *)
Definition falling_history : list obs :=
  map (fun i => {| date := jan_2024 (S i); nav := Qnat (20 - i) |}) (seq 0 15).

(** The same series as a Morningstar response. *)
Definition falling_response : list raw_record :=
  map (fun o => {| raw_date := Some (date o); raw_nav := Some (nav o) |}) falling_history.

(** A stored series and a batch that rewrites one of its dates twice. *)
Definition history_S0 : list obs :=
  [{| date := jan_2024 1; nav := 1 |}; {| date := jan_2024 2; nav := 2 |}].

Definition batch_B0 : list obs :=
  [{| date := jan_2024 2; nav := 5 |}; {| date := jan_2024 3; nav := 4 |};
   {| date := jan_2024 2; nav := 6 |}].

(** A series that moves up and down: 10, 12, 14, 11, 13, 10, ... *)
Definition zigzag_prices : list Q :=
  map (fun i => Qnat (10 + Nat.modulo (i * 7) 5)) (seq 0 20).

(** The snapshot [compute_indicators] gives for the falling series. *)
Definition falling_snapshot : snapshot :=
  match compute_indicators "PGF" falling_history with
  | Ok (Some s) => s
  | _ => mk_snapshot "PGF" None None None
  end.

(** A holdings table row, and one whose weighting [float()] rejects. *)
Definition tnb_row : holding_row :=
  {| row_security_name := Some "Tenaga Nasional Bhd"%string; row_ticker := Some "TENAGA"%string;
     row_weighting := Some (WNum (525 # 100)) |}.

Definition bad_row : holding_row :=
  {| row_security_name := Some "Cash"%string; row_ticker := None; row_weighting := Some WBad |}.

Definition tnb_holding : holding :=
  {| h_name := "Tenaga Nasional Bhd"; h_ticker := "TENAGA"; weight_pct := py_round 2 (525 # 100) |}.

Definition tnb_holdings_response (f : fund) : res (option (list holding_row)) :=
  Ok (Some [tnb_row]).

(** The holdings after a February refresh from an empty [holdings.json]. *)
Definition refreshed_holdings : PyDict.t hval :=
  match refresh_holdings "2024-02" "2024-02-01" tnb_holdings_response FUNDS [] with
  | Ok h => h
  | Err _ => []
  end.

Definition falling_nav_response (f : fund) : res (list raw_record) := Ok falling_response.

(** The state after Step 1 over all of [FUNDS], from an empty state. *)
Definition step1_state : pipeline_state :=
  match step1 falling_nav_response FUNDS empty_state with
  | Ok st => st
  | Err _ => empty_state
  end.

(* ================================================================== *)
(** * Lemmas *)

(** ** The lexicographic order on strings *)
Module StrOrder.
Lemma compare_refl s : String.compare s s = Eq.
Proof.
  induction s as [|c s IH]; simpl; [reflexivity|].
  unfold Ascii.compare. rewrite N.compare_refl. exact IH.
Qed.

Lemma lt_trans a b c :
  String.compare a b = Lt -> String.compare b c = Lt -> String.compare a c = Lt.
Proof.
  revert b c; induction a as [|x a IH]; intros [|y b] [|z c]; simpl;
    try discriminate; auto.
  unfold Ascii.compare.
  destruct (N.compare_spec (N_of_ascii x) (N_of_ascii y)) as [E1|E1|E1];
  destruct (N.compare_spec (N_of_ascii y) (N_of_ascii z)) as [E2|E2|E2];
  destruct (N.compare_spec (N_of_ascii x) (N_of_ascii z)) as [E3|E3|E3];
  intros H1 H2; try discriminate; try reflexivity; try lia; eauto.
Qed.

Lemma lt_irrefl a : String.compare a a <> Lt.
Proof. rewrite compare_refl. discriminate. Qed.

Lemma lt_asym a b : String.compare a b = Lt -> String.compare b a <> Lt.
Proof.
  intros H. rewrite String.compare_antisym, H. discriminate.
Qed.

Lemma leb_trans a b c :
  String.leb a b = true -> String.leb b c = true -> String.leb a c = true.
Proof.
  unfold String.leb.
  destruct (String.compare a b) eqn:E1; try discriminate;
  destruct (String.compare b c) eqn:E2; try discriminate; intros _ _.
  - apply String.compare_eq_iff in E1. apply String.compare_eq_iff in E2.
    subst. rewrite compare_refl. reflexivity.
  - apply String.compare_eq_iff in E1. subst. rewrite E2. reflexivity.
  - apply String.compare_eq_iff in E2. subst. rewrite E1. reflexivity.
  - rewrite (lt_trans _ _ _ E1 E2). reflexivity.
Qed.

Lemma leb_neq_lt a b : String.leb a b = true -> a <> b -> String.compare a b = Lt.
Proof.
  unfold String.leb. destruct (String.compare a b) eqn:E; try discriminate; auto.
  intros _ Hne. apply String.compare_eq_iff in E. contradiction.
Qed.

Lemma leb_total_false a b : String.leb a b = false -> String.leb b a = true.
Proof. intros H. destruct (String.leb_total a b); congruence. Qed.
End StrOrder.

(** ** Facts about the dict model *)
Module DictFacts.
Import PyDict.

Lemma get_set {V} (d : t V) k k' v :
  get (set d k' v) k = if String.eqb k k' then Some v else get d k.
Proof.
  induction d as [|[k0 v0] d IH]; simpl; [reflexivity|].
  destruct (String.eqb_spec k' k0) as [->|Hne]; simpl.
  - destruct (String.eqb k k0); reflexivity.
  - rewrite IH.
    destruct (String.eqb_spec k k0), (String.eqb_spec k k'); subst; congruence.
Qed.

Lemma get_In_keys {V} (d : t V) k v : get d k = Some v -> In k (keys d).
Proof.
  induction d as [|[k0 v0] d IH]; simpl; [discriminate|].
  destruct (String.eqb_spec k k0); auto.
Qed.

Lemma get_notin {V} (d : t V) k : ~ In k (keys d) -> get d k = None.
Proof.
  induction d as [|[k0 v0] d IH]; simpl; [reflexivity|].
  intros Hn. destruct (String.eqb_spec k k0); [subst; tauto|]. auto.
Qed.

Lemma In_get {V} (d : t V) k v : NoDup (keys d) -> In (k, v) d -> get d k = Some v.
Proof.
  induction d as [|[k0 v0] d IH]; simpl; [tauto|].
  intros Hnd [Heq|Hin]; inversion Hnd as [|? ? Hn Hnd']; subst.
  - inversion Heq; subst. rewrite String.eqb_refl. reflexivity.
  - destruct (String.eqb_spec k k0) as [->|]; [|auto].
    exfalso. apply Hn. apply (in_map fst) in Hin. exact Hin.
Qed.

Lemma get_Some_In {V} (d : t V) k v : get d k = Some v -> In (k, v) d.
Proof.
  induction d as [|[k0 v0] d IH]; simpl; [discriminate|].
  destruct (String.eqb_spec k k0) as [->|]; intros H; [inversion H; auto|auto].
Qed.

Lemma set_notin {V} (d : t V) k v : ~ In k (keys d) -> set d k v = d ++ [(k, v)].
Proof.
  induction d as [|[k0 v0] d IH]; simpl; [reflexivity|].
  intros Hn. destruct (String.eqb_spec k k0); [subst; tauto|]. rewrite IH; auto.
Qed.

(** Assigning distinct keys in turn appends them in order. *)
Lemma fold_set_app {A V} (key : A -> string) (val : A -> V) (xs : list A) (d : t V) :
  NoDup (keys d ++ map key xs) ->
  fold_left (fun d x => set d (key x) (val x)) xs d
  = d ++ map (fun x => (key x, val x)) xs.
Proof.
  revert d; induction xs as [|x xs IH]; intros d Hnd; simpl.
  - rewrite app_nil_r. reflexivity.
  - rewrite set_notin.
    + rewrite IH, <- app_assoc; [reflexivity|].
      unfold keys. rewrite map_app, <- app_assoc. exact Hnd.
    + intros Hin. apply (NoDup_remove_2 _ _ _ Hnd). apply in_or_app. left. exact Hin.
Qed.

Lemma fold_set_map {A V} (key : A -> string) (val : A -> V) (xs : list A) :
  NoDup (map key xs) ->
  fold_left (fun d x => set d (key x) (val x)) xs [] = map (fun x => (key x, val x)) xs.
Proof. intros H. apply (fold_set_app key val xs []). exact H. Qed.

Lemma keys_set {V} (d : t V) k v x : In x (keys (set d k v)) <-> x = k \/ In x (keys d).
Proof.
  induction d as [|[k0 v0] d IH]; simpl.
  - split; intros H; repeat destruct H as [H|H]; subst; auto.
  - destruct (String.eqb_spec k k0) as [->|]; simpl.
    + split; intros H; repeat destruct H as [H|H]; subst; auto.
    + rewrite IH. tauto.
Qed.

Lemma NoDup_keys_set {V} (d : t V) k v : NoDup (keys d) -> NoDup (keys (set d k v)).
Proof.
  induction d as [|[k0 v0] d IH]; simpl; intros Hnd.
  - constructor; [simpl; tauto|constructor].
  - inversion Hnd as [|? ? Hn Hnd']; subst.
    destruct (String.eqb_spec k k0) as [->|Hne]; simpl; [exact Hnd|].
    constructor; [|auto].
    intros Hin. apply (proj1 (keys_set d k v k0)) in Hin. destruct Hin; [congruence|tauto].
Qed.

(** With distinct keys, [get] only depends on the set of pairs. *)
Lemma get_perm {V} (d d' : t V) k :
  NoDup (keys d) -> Permutation d d' -> get d k = get d' k.
Proof.
  intros Hnd Hp.
  assert (Hnd' : NoDup (keys d')) by (apply (Permutation_NoDup (Permutation_map fst Hp)); exact Hnd).
  destruct (get d k) as [v|] eqn:E.
  - symmetry. apply In_get; [exact Hnd'|].
    apply (Permutation_in _ Hp). apply get_Some_In. exact E.
  - symmetry. apply get_notin. intros Hin.
    apply (Permutation_in _ (Permutation_sym (Permutation_map fst Hp))) in Hin.
    destruct (get d k) eqn:E2; [discriminate|].
    unfold keys in Hin. apply in_map_iff in Hin. destruct Hin as [[k1 v1] [Hk Hin]].
    simpl in Hk; subst k1. rewrite (In_get d k v1 Hnd Hin) in E2. discriminate.
Qed.
End DictFacts.

(** ** Facts about the stable insertion sort *)
Section SortFacts.
Context {A : Type} (le : A -> A -> bool).

Lemma insert_by_perm x l : Permutation (insert_by le x l) (x :: l).
Proof.
  induction l as [|y l IH]; simpl; [reflexivity|].
  destruct (le x y); [reflexivity|].
  rewrite IH. apply perm_swap.
Qed.

Lemma sort_by_perm l : Permutation (sort_by le l) l.
Proof.
  induction l as [|x l IH]; simpl; [reflexivity|].
  rewrite insert_by_perm, IH. reflexivity.
Qed.

(** Stability: inside a class of mutually [le]-related elements, the
    input order is kept. *)
Lemma filter_insert_by (p : A -> bool) x l :
  (forall y, p x = true -> p y = true -> le x y = true) ->
  filter p (insert_by le x l) = filter p (x :: l).
Proof.
  intros Hcls. induction l as [|y l IH]; simpl; [reflexivity|].
  destruct (le x y) eqn:Exy; [reflexivity|]. simpl. rewrite IH. simpl.
  destruct (p x) eqn:Px, (p y) eqn:Py; try reflexivity.
  rewrite (Hcls y eq_refl Py) in Exy. discriminate.
Qed.

Lemma filter_sort_by (p : A -> bool) l :
  (forall x y, p x = true -> p y = true -> le x y = true) ->
  filter p (sort_by le l) = filter p l.
Proof.
  intros Hcls. induction l as [|x l IH]; simpl; [reflexivity|].
  rewrite filter_insert_by by auto. simpl. rewrite IH. reflexivity.
Qed.

Hypothesis le_total : forall a b, le a b = false -> le b a = true.

Lemma insert_by_hd y x l :
  HdRel (fun a b => le a b = true) y l -> le y x = true ->
  HdRel (fun a b => le a b = true) y (insert_by le x l).
Proof.
  destruct l as [|z l]; simpl; intros Hhd Hyx; [constructor; exact Hyx|].
  destruct (le x z); constructor; [exact Hyx|]. inversion Hhd; assumption.
Qed.

Lemma insert_by_sorted x l :
  Sorted (fun a b => le a b = true) l -> Sorted (fun a b => le a b = true) (insert_by le x l).
Proof.
  induction l as [|y l IH]; simpl; intros Hs; [repeat constructor|].
  destruct (le x y) eqn:Exy.
  - constructor; [exact Hs|]. constructor. exact Exy.
  - inversion Hs as [|? ? Hs' Hhd]; subst.
    constructor; [auto|]. apply insert_by_hd; auto.
Qed.

Lemma sort_by_sorted l : Sorted (fun a b => le a b = true) (sort_by le l).
Proof.
  induction l as [|x l IH]; simpl; [constructor|]. apply insert_by_sorted. exact IH.
Qed.
End SortFacts.

(** ** List helpers *)
Section ListFacts.
Context {A : Type}.

Lemma filter_length_le (p : A -> bool) l : (length (filter p l) <= length l)%nat.
Proof. induction l as [|x l IH]; simpl; [lia|]. destruct (p x); simpl; lia. Qed.

Lemma perm_filter_length (p : A -> bool) l l' :
  Permutation l l' -> length (filter p l) = length (filter p l').
Proof.
  induction 1; simpl; try reflexivity.
  - destruct (p x); simpl; auto.
  - destruct (p x), (p y); reflexivity.
  - congruence.
Qed.

Lemma filter_Forall_false (p : A -> bool) l : Forall (fun x => p x = false) l -> filter p l = [].
Proof. induction 1 as [|x l Hx _ IH]; simpl; [reflexivity|]. rewrite Hx. exact IH. Qed.

Lemma filter_Forall_true (p : A -> bool) l : Forall (fun x => p x = true) l -> filter p l = l.
Proof. induction 1 as [|x l Hx _ IH]; simpl; [reflexivity|]. rewrite Hx, IH. reflexivity. Qed.

Lemma ss_skipn (R : A -> A -> Prop) (Rrefl : forall a, R a a) s k d :
  StronglySorted R s -> (k < length s)%nat -> Forall (R (nth k s d)) (skipn k s).
Proof.
  revert k; induction s as [|a s IH]; intros k Hs Hk; simpl in Hk; [lia|].
  apply StronglySorted_inv in Hs as [Hs Hf].
  destruct k as [|k]; simpl.
  - constructor; [apply Rrefl|exact Hf].
  - apply IH; [exact Hs|lia].
Qed.

Lemma ss_firstn (R : A -> A -> Prop) (Rrefl : forall a, R a a) s k d :
  StronglySorted R s -> (k < length s)%nat -> Forall (fun x => R x (nth k s d)) (firstn (S k) s).
Proof.
  revert k; induction s as [|a s IH]; intros k Hs Hk; simpl in Hk; [lia|].
  apply StronglySorted_inv in Hs as [Hs Hf].
  destruct k as [|k]; simpl.
  - constructor; [apply Rrefl|constructor].
  - constructor.
    + rewrite Forall_forall in Hf. apply Hf. apply nth_In. lia.
    + apply (IH k); [exact Hs|lia].
Qed.

Lemma NoDup_map_filter {B} (f : A -> B) (p : A -> bool) l :
  NoDup (map f l) -> NoDup (map f (filter p l)).
Proof.
  induction l as [|x l IH]; simpl; intros Hnd; [constructor|].
  inversion Hnd as [|? ? Hn Hnd']; subst.
  destruct (p x); simpl; [|auto].
  constructor; [|auto].
  intros Hin. apply Hn. apply in_map_iff in Hin as [y [Hy Hin]].
  apply filter_In in Hin as [Hin _]. rewrite <- Hy. apply in_map. exact Hin.
Qed.

Lemma NoDup_map_inj {B} (f : A -> B) l x y :
  NoDup (map f l) -> In x l -> In y l -> f x = f y -> x = y.
Proof.
  induction l as [|z l IH]; simpl; intros Hnd Hx Hy Hxy; [tauto|].
  inversion Hnd as [|? ? Hn Hnd']; subst.
  destruct Hx as [<-|Hx], Hy as [<-|Hy]; auto.
  - exfalso. apply Hn. rewrite Hxy. apply in_map. exact Hy.
  - exfalso. apply Hn. rewrite <- Hxy. apply in_map. exact Hx.
Qed.

Lemma enumerate_snd (i : nat) (l : list A) : map snd (enumerate_from i l) = l.
Proof. revert i; induction l as [|x l IH]; intros i; simpl; [reflexivity|]. rewrite IH. reflexivity. Qed.

Lemma enumerate_fst (i : nat) (l : list A) : map fst (enumerate_from i l) = seq i (length l).
Proof. revert i; induction l as [|x l IH]; intros i; simpl; [reflexivity|]. rewrite IH. reflexivity. Qed.
End ListFacts.

Lemma StronglySorted_map {A B} (R : B -> B -> Prop) (f : A -> B) l :
  StronglySorted (fun a b => R (f a) (f b)) l -> StronglySorted R (map f l).
Proof.
  induction 1 as [|a l _ IH Hf]; simpl; constructor; [exact IH|].
  apply Forall_map. exact Hf.
Qed.

Lemma Sorted_map {A B} (R : B -> B -> Prop) (f : A -> B) l :
  Sorted (fun a b => R (f a) (f b)) l -> Sorted R (map f l).
Proof.
  induction 1 as [|a l _ IH Hhd]; simpl; constructor; [exact IH|].
  destruct Hhd; simpl; constructor. assumption.
Qed.

(** ** Cross-sectional stage: shape of the two result dicts *)

Lemma Qle_bool_refl a : Qle_bool a a = true.
Proof. apply Qle_bool_iff. apply Qle_refl. Qed.

Lemma Qle_bool_total a b : Qle_bool a b = false -> Qle_bool b a = true.
Proof.
  intros H. apply Qle_bool_iff. apply Qlt_le_weak. apply Qnot_le_lt.
  intros Hle. apply Qle_bool_iff in Hle. congruence.
Qed.

Lemma Qle_bool_trans : Transitive (fun a b => Qle_bool a b = true).
Proof.
  intros a b c Hab Hbc. apply Qle_bool_iff in Hab, Hbc. apply Qle_bool_iff.
  eapply Qle_trans; eassumption.
Qed.

Lemma flow_proxy_map (l : list snapshot) :
  NoDup (map fund_code l) ->
  compute_flow_proxy l
  = map (fun f => (fund_code f, flow_entry_of (pct_1m_value f - flow_median l))) (flow_valid l).
Proof.
  intros Hnd. unfold compute_flow_proxy. cbv zeta.
  destruct (flow_valid l) as [|g gs] eqn:E; [reflexivity|]. rewrite <- E.
  apply (DictFacts.fold_set_map fund_code
           (fun f => flow_entry_of (pct_1m_value f - flow_median l))).
  apply NoDup_map_filter. exact Hnd.
Qed.

Lemma flow_proxy_keys (l : list snapshot) k :
  NoDup (map fund_code l) ->
  In k (PyDict.keys (compute_flow_proxy l)) -> exists g, In g (flow_valid l) /\ fund_code g = k.
Proof.
  intros Hnd Hin. rewrite flow_proxy_map in Hin by exact Hnd.
  unfold PyDict.keys in Hin. rewrite map_map in Hin. simpl in Hin.
  apply in_map_iff in Hin as [g [Hg Hin]]. exists g. split; assumption.
Qed.

Lemma score_ge_total a b : score_ge a b = false -> score_ge b a = true.
Proof. unfold score_ge. apply Qle_bool_total. Qed.

Lemma rank_funds_map (l : list snapshot) :
  NoDup (map fund_code l) ->
  rank_funds l
  = map (fun ie => (fst (snd ie), {| rank := S (fst ie); score := snd (snd ie) |}))
        (enumerate_from 0 (sort_by score_ge (scoreable l))).
Proof.
  intros Hnd. unfold rank_funds.
  apply (DictFacts.fold_set_map (fun ie : nat * (string * Q) => fst (snd ie))
           (fun ie => {| rank := S (fst ie); score := snd (snd ie) |})).
  rewrite <- map_map, enumerate_snd.
  apply (Permutation_NoDup (Permutation_map fst (Permutation_sym (sort_by_perm _ _)))).
  unfold scoreable. rewrite map_map. exact Hnd.
Qed.

Lemma In_enumerate {A} (x : A) l j :
  In x l -> exists i, (j <= i < j + length l)%nat /\ In (i, x) (enumerate_from j l).
Proof.
  revert j; induction l as [|y l IH]; intros j Hin; simpl in Hin; [tauto|].
  destruct Hin as [<-|Hin].
  - exists j. simpl. split; [lia|left; reflexivity].
  - destruct (IH (S j) Hin) as [i [Hi Hin']]. exists i. simpl. split; [lia|right; exact Hin'].
Qed.

(* ================================================================== *)
(** * Claims *)

(** ** C1: the flow-proxy median *)

(** C1 (amended).  For a non-empty set of funds with a 1-month change,
    the median used by [compute_flow_proxy] is the element at index
    [n / 2] of the sorted changes: at most [n / 2] changes lie strictly
    below it and more than [n / 2] lie at or below it, so for an odd
    [n] it is the middle element and for an even [n] the UPPER of the
    two middle elements.  Each fund's entry is built from
    [delta = pct_1m - median], classified INFLOW above 1.5, OUTFLOW
    below -1.5 and NEUTRAL otherwise. *)
Theorem flow_proxy_upper_median (l : list snapshot) :
  NoDup (map fund_code l) -> flow_valid l <> [] ->
  let returns_1m := map pct_1m_value (flow_valid l) in
  let m := flow_median l in
  (length (filter (fun x => Qltb x m) returns_1m) <= Nat.div (length returns_1m) 2)%nat /\
  (Nat.div (length returns_1m) 2 < length (filter (fun x => Qle_bool x m) returns_1m))%nat /\
  (forall f x, In f l -> pct_1m f = Some x ->
     PyDict.get (compute_flow_proxy l) (fund_code f) = Some (flow_entry_of (x - m)) /\
     signal (flow_entry_of (x - m)) =
       (if Qltb (3 # 2) (x - m) then "INFLOW"
        else if Qltb (x - m) (- (3 # 2)) then "OUTFLOW" else "NEUTRAL")%string).
Proof.
  intros Hnd Hne returns_1m m.
  set (s := sort_by Qle_bool returns_1m).
  set (k := Nat.div (length returns_1m) 2).
  assert (Hperm : Permutation s returns_1m) by apply sort_by_perm.
  assert (Hlen : length s = length returns_1m) by (apply Permutation_length; exact Hperm).
  assert (Hpos : (0 < length returns_1m)%nat).
  { unfold returns_1m. rewrite length_map.
    destruct (flow_valid l); [congruence|simpl; lia]. }
  assert (Hk : (k < length s)%nat) by (rewrite Hlen; unfold k; apply Nat.div_lt; lia).
  assert (Hm : m = nth k s 0) by reflexivity.
  assert (Hss : StronglySorted (fun a b => Qle_bool a b = true) s).
  { apply Sorted_StronglySorted; [exact Qle_bool_trans|].
    apply sort_by_sorted. exact Qle_bool_total. }
  split; [|split].
  - rewrite <- (perm_filter_length _ _ _ Hperm).
    rewrite <- (firstn_skipn k s), filter_app, length_app.
    rewrite (filter_Forall_false _ (skipn k s)).
    + simpl. pose proof (filter_length_le (fun x => Qltb x m) (firstn k s)) as H.
      rewrite firstn_length_le in H by lia. lia.
    + pose proof (ss_skipn _ Qle_bool_refl s k 0 Hss Hk) as Hf. rewrite <- Hm in Hf.
      eapply Forall_impl; [|exact Hf]. intros x Hx. unfold Qltb. rewrite Hx. reflexivity.
  - rewrite <- (perm_filter_length _ _ _ Hperm).
    rewrite <- (firstn_skipn (S k) s), filter_app, length_app.
    rewrite (filter_Forall_true _ (firstn (S k) s)).
    + rewrite firstn_length_le by lia. lia.
    + pose proof (ss_firstn _ Qle_bool_refl s k 0 Hss Hk) as Hf. rewrite <- Hm in Hf. exact Hf.
  - intros f x Hin Hx. split.
    + rewrite flow_proxy_map by exact Hnd. apply DictFacts.In_get.
      * unfold PyDict.keys. rewrite map_map. simpl. apply NoDup_map_filter. exact Hnd.
      * apply in_map_iff. exists f. split.
        -- unfold pct_1m_value. rewrite Hx. reflexivity.
        -- apply filter_In. split; [exact Hin|]. unfold has_pct_1m. rewrite Hx. reflexivity.
    + unfold flow_entry_of, classify_flow.
      destruct (Qltb (3 # 2) (x - m)), (Qltb (x - m) (- (3 # 2))); reflexivity.
Qed.

(** C1 (counterexample).  On the spec's scenario (1-month changes 3 and
    -2) the median is 3, not -2: fund A is NEUTRAL and fund B OUTFLOW. *)
Lemma flow_median_scenario_is_upper :
  ~ (flow_median [fund_A; fund_B] == -2)%Q /\
  opt_map signal (PyDict.get (compute_flow_proxy [fund_A; fund_B]) "A") = Some "NEUTRAL"%string /\
  opt_map signal (PyDict.get (compute_flow_proxy [fund_A; fund_B]) "B") = Some "OUTFLOW"%string.
Proof.
  split; [|split; vm_compute; reflexivity].
  intros H. vm_compute in H. discriminate.
Qed.

(** ** C2: funds without a 1-month change *)

(** C2 (amended).  A fund whose [pct_1m] is absent has no entry in the
    flow proxy, but [rank_funds] still ranks it (rank in [1..N]), with
    the score computed from its other fields. *)
Theorem pct_1m_absent_flow_not_rank (l : list snapshot) (f : snapshot) :
  NoDup (map fund_code l) -> In f l -> pct_1m f = None ->
  PyDict.get (compute_flow_proxy l) (fund_code f) = None /\
  exists r, (1 <= r <= length l)%nat /\
    PyDict.get (rank_funds l) (fund_code f)
    = Some {| rank := r; score := py_round 4 (momentum_score f) |}.
Proof.
  intros Hnd Hin Hnone. split.
  - apply DictFacts.get_notin. intros Hk.
    destruct (flow_proxy_keys l _ Hnd Hk) as [g [Hg Hgf]].
    apply filter_In in Hg as [Hgl Hgp].
    rewrite (NoDup_map_inj fund_code l g f Hnd Hgl Hin Hgf) in Hgp.
    unfold has_pct_1m in Hgp. rewrite Hnone in Hgp. discriminate.
  - assert (Hs : In (fund_code f, py_round 4 (momentum_score f))
                    (sort_by score_ge (scoreable l))).
    { apply (Permutation_in _ (Permutation_sym (sort_by_perm _ _))).
      unfold scoreable. apply (in_map (fun f => (fund_code f, py_round 4 (momentum_score f)))).
      exact Hin. }
    destruct (In_enumerate _ _ 0 Hs) as [i [Hi Hie]].
    rewrite (Permutation_length (sort_by_perm _ _)) in Hi.
    unfold scoreable in Hi. rewrite length_map in Hi.
    exists (S i). split; [lia|].
    rewrite rank_funds_map by exact Hnd. apply DictFacts.In_get.
    + unfold PyDict.keys. rewrite map_map. simpl. rewrite <- map_map, enumerate_snd.
      apply (Permutation_NoDup (Permutation_map fst (Permutation_sym (sort_by_perm _ _)))).
      unfold scoreable. rewrite map_map. exact Hnd.
    + apply (in_map (fun ie : nat * (string * Q) =>
                       (fst (snd ie), {| rank := S (fst ie); score := snd (snd ie) |})) _ _ Hie).
Qed.

(** C2 (counterexample).  Fund C has no 1-month change: it is absent
    from the flow proxy but ranked 2nd of 3 by [rank_funds]. *)
Lemma pct_1m_absent_still_ranked :
  PyDict.get (compute_flow_proxy [fund_A; fund_B; fund_C]) "C" = None /\
  opt_map rank (PyDict.get (rank_funds [fund_A; fund_B; fund_C]) "C") = Some 2%nat.
Proof. split; vm_compute; reflexivity. Qed.

(** C2 (witness). *)
Lemma pct_1m_absent_flow_not_rank_witness :
  PyDict.get (compute_flow_proxy [fund_A; fund_B; fund_C]) "C" = None /\
  exists r, (1 <= r <= 3)%nat /\
    PyDict.get (rank_funds [fund_A; fund_B; fund_C]) "C"
    = Some {| rank := r; score := py_round 4 (momentum_score fund_C) |}.
Proof.
  apply (pct_1m_absent_flow_not_rank [fund_A; fund_B; fund_C] fund_C).
  - vm_compute. repeat constructor; simpl; intuition discriminate.
  - simpl. right. right. left. reflexivity.
  - reflexivity.
Defined.

(** C1 (witness). *)
Lemma flow_proxy_upper_median_witness :
  let l := [fund_A; fund_B] in
  let returns_1m := map pct_1m_value (flow_valid l) in
  let m := flow_median l in
  (length (filter (fun x => Qltb x m) returns_1m) <= Nat.div (length returns_1m) 2)%nat /\
  (Nat.div (length returns_1m) 2 < length (filter (fun x => Qle_bool x m) returns_1m))%nat /\
  (forall f x, In f l -> pct_1m f = Some x ->
     PyDict.get (compute_flow_proxy l) (fund_code f) = Some (flow_entry_of (x - m)) /\
     signal (flow_entry_of (x - m)) =
       (if Qltb (3 # 2) (x - m) then "INFLOW"
        else if Qltb (x - m) (- (3 # 2)) then "OUTFLOW" else "NEUTRAL")%string).
Proof.
  apply (flow_proxy_upper_median [fund_A; fund_B]).
  - vm_compute. repeat constructor; simpl; intuition discriminate.
  - vm_compute. discriminate.
Defined.

(** ** C3: division by zero in the indicator computation *)

(** C3 (code bug).  On 21 observations whose first NAV is 0 (the value
    the fetcher substitutes for a missing "nav" key),
    [calculate_volatility] divides by that NAV: [compute_indicators]
    raises [ZeroDivisionError], and so does the pipeline step, while
    [calculate_pct_change] guards the same zero base and returns None. *)
Lemma compute_indicators_zero_nav_raises :
  compute_indicators "PGF" zero_first_history = Err ZeroDivisionError /\
  pipeline_step PGF (Ok zero_first_response) empty_state = Err ZeroDivisionError /\
  calculate_pct_change (map nav zero_first_history) 20 = Ok None.
Proof. split; [|split]; vm_compute; reflexivity. Qed.

(** ** C4: RSI(14) *)

Lemma py_div_ok a b : ~ (b == 0) -> py_div a b = Ok (a / b).
Proof.
  intros Hb. unfold py_div. destruct (Qeq_bool b 0) eqn:E; [|reflexivity].
  apply Qeq_bool_iff in E. contradiction.
Qed.

Lemma foldM_ok {A B} (f : A -> B -> res A) (g : A -> B -> A) l a :
  (forall a b, f a b = Ok (g a b)) -> foldM f l a = Ok (fold_left g l a).
Proof.
  intros Hfg. revert a; induction l as [|x l IH]; intros a; simpl; [reflexivity|].
  rewrite Hfg. simpl. apply IH.
Qed.

Definition wilder_pair (g lo : list Q) (acc : Q * Q) (i : nat) : Q * Q :=
  ((fst acc * 13 + nth i g 0) / 14, (snd acc * 13 + nth i lo 0) / 14).

Lemma wilder_pair_fst g lo k n acc :
  fst (fold_left (wilder_pair g lo) (seq k n) acc)
  = wilder (fst acc) (map (fun i => nth i g 0) (seq k n)).
Proof.
  revert k acc; induction n as [|n IH]; intros k acc; simpl; [reflexivity|].
  rewrite IH. reflexivity.
Qed.

Lemma wilder_pair_snd g lo k n acc :
  snd (fold_left (wilder_pair g lo) (seq k n) acc)
  = wilder (snd acc) (map (fun i => nth i lo 0) (seq k n)).
Proof.
  revert k acc; induction n as [|n IH]; intros k acc; simpl; [reflexivity|].
  rewrite IH. reflexivity.
Qed.

Lemma map_nth_seq_skipn (g : list Q) k :
  map (fun i => nth i g 0) (seq k (length g - k)) = skipn k g.
Proof.
  revert k; induction g as [|x g IH]; intros k; simpl.
  - destruct k; reflexivity.
  - destruct k as [|k].
    + simpl. f_equal. rewrite <- seq_shift, map_map. simpl.
      pose proof (IH 0%nat) as H. rewrite Nat.sub_0_r in H. exact H.
    + rewrite <- seq_shift, map_map. simpl. apply IH.
Qed.

Lemma py_max_nonneg d : 0 <= py_max d 0.
Proof.
  unfold py_max, Qltb. destruct (Qle_bool 0 d) eqn:E; simpl.
  - apply Qle_bool_iff. exact E.
  - apply Qle_refl.
Qed.

Lemma sum_nonneg l : Forall (Qle 0) l -> 0 <= sum l.
Proof.
  induction 1 as [|x l Hx _ IH]; simpl; [apply Qle_refl|]. lra.
Qed.

Lemma wilder_nonneg a l : 0 <= a -> Forall (Qle 0) l -> 0 <= wilder a l.
Proof.
  intros Ha Hl. revert a Ha; induction Hl as [|x l Hx _ IH]; intros a Ha; simpl; [exact Ha|].
  apply IH. apply Qle_shift_div_l; [reflexivity|]. lra.
Qed.

Lemma sum_zero l : Forall (fun x => x == 0) l -> sum l == 0.
Proof.
  induction 1 as [|x l Hx _ IH]; simpl; [reflexivity|]. rewrite Hx, IH. reflexivity.
Qed.

Lemma wilder_zero a l : a == 0 -> Forall (fun x => x == 0) l -> wilder a l == 0.
Proof.
  intros Ha Hl. revert a Ha; induction Hl as [|x l Hx _ IH]; intros a Ha; simpl; [exact Ha|].
  apply IH. rewrite Ha, Hx. reflexivity.
Qed.

Lemma gains_nonneg p : Forall (Qle 0) (gains_of p).
Proof. apply Forall_forall. intros x Hx. apply in_map_iff in Hx as [d [<- _]]. apply py_max_nonneg. Qed.

Lemma losses_nonneg p : Forall (Qle 0) (losses_of p).
Proof. apply Forall_forall. intros x Hx. apply in_map_iff in Hx as [d [<- _]]. apply py_max_nonneg. Qed.

Lemma Forall_firstn' {A} (P : A -> Prop) n l : Forall P l -> Forall P (firstn n l).
Proof.
  intros H. apply Forall_forall. intros x Hx. rewrite Forall_forall in H.
  apply H. rewrite <- (firstn_skipn n l). apply in_or_app. left. exact Hx.
Qed.

Lemma Forall_skipn' {A} (P : A -> Prop) n l : Forall P l -> Forall P (skipn n l).
Proof.
  intros H. apply Forall_forall. intros x Hx. rewrite Forall_forall in H.
  apply H. rewrite <- (firstn_skipn n l). apply in_or_app. right. exact Hx.
Qed.

(** A non-decreasing series has only zero losses. *)
Lemma losses_zero p : non_decreasing p -> Forall (fun x => x == 0) (losses_of p).
Proof.
  intros Hnd. apply Forall_forall. intros x Hx.
  unfold losses_of, deltas in Hx. rewrite map_map in Hx.
  apply in_map_iff in Hx as [i [<- Hi]]. apply in_seq in Hi.
  destruct i as [|j]; [lia|]. simpl. rewrite Nat.sub_0_r.
  specialize (Hnd j ltac:(lia)).
  unfold py_max, Qltb. destruct (Qle_bool 0 (- (nth (S j) p 0 - nth j p 0))) eqn:E; simpl.
  - apply Qle_bool_iff in E. apply Qle_antisym; lra.
  - reflexivity.
Qed.

Lemma Qnat14_nz : ~ (Qnat 14 == 0).
Proof. intros H. vm_compute in H. discriminate. Qed.

(** The code's RSI equals the spec's wording of it, divisions included:
    none of them can fail. *)
Lemma calculate_rsi_eq p : calculate_rsi p 14 = Ok (rsi_spec p).
Proof.
  unfold calculate_rsi, rsi_spec.
  change (Nat.ltb (length p) (14 + 1)) with (Nat.ltb (length p) 15).
  destruct (Nat.ltb (length p) 15) eqn:Hlt; [reflexivity|].
  cbv zeta.
  change (map (fun d => py_max d 0) (deltas p)) with (gains_of p).
  change (map (fun d => py_max (- d) 0) (deltas p)) with (losses_of p).
  rewrite !(py_div_ok _ (Qnat 14)) by exact Qnat14_nz. cbn [bind].
  rewrite (foldM_ok _ (wilder_pair (gains_of p) (losses_of p))).
  2:{ intros acc i. rewrite !(py_div_ok _ (Qnat 14)) by exact Qnat14_nz. reflexivity. }
  cbn [bind].
  set (F := fold_left (wilder_pair (gains_of p) (losses_of p)) _ _).
  set (AG := wilder (sum (firstn 14 (gains_of p)) / 14) (skipn 14 (gains_of p))).
  set (AL := wilder (sum (firstn 14 (losses_of p)) / 14) (skipn 14 (losses_of p))).
  assert (HF1 : fst F = AG).
  { unfold F. rewrite wilder_pair_fst, map_nth_seq_skipn. reflexivity. }
  assert (HF2 : snd F = AL).
  { unfold F. rewrite wilder_pair_snd.
    unfold gains_of, losses_of. rewrite !length_map.
    rewrite <- (length_map (fun d => py_max (- d) 0) (deltas p)).
    rewrite map_nth_seq_skipn. reflexivity. }
  rewrite HF1, HF2.
  destruct (Qeq_bool AL 0) eqn:E; [reflexivity|].
  assert (HAL : ~ (AL == 0)) by (intros H; apply Qeq_bool_iff in H; congruence).
  assert (HAG0 : 0 <= AG).
  { apply wilder_nonneg; [|apply Forall_skipn', gains_nonneg].
    apply Qle_shift_div_l; [reflexivity|].
    pose proof (sum_nonneg _ (Forall_firstn' _ 14 _ (gains_nonneg p))). lra. }
  assert (HAL0 : 0 < AL).
  { assert (H0 : 0 <= AL).
    { apply wilder_nonneg; [|apply Forall_skipn', losses_nonneg].
      apply Qle_shift_div_l; [reflexivity|].
      pose proof (sum_nonneg _ (Forall_firstn' _ 14 _ (losses_nonneg p))). lra. }
    apply Qle_lteq in H0 as [H0|H0]; [exact H0|]. exfalso. apply HAL. symmetry. exact H0. }
  rewrite (py_div_ok AG AL HAL). cbn [bind].
  assert (Hrs : 0 <= AG / AL).
  { apply Qle_shift_div_l; [exact HAL0|]. lra. }
  rewrite py_div_ok by (set (q := AG / AL) in *; lra).
  reflexivity.
Qed.

(** C4.  [calculate_rsi prices 14] never raises and returns RSI(14) as
    §4.3 words it ([rsi_spec]): Wilder smoothing seeded by the mean of
    the first 14 gains/losses, exactly 100 when the average loss is
    zero, otherwise [100 - 100/(1 + avg_gain/avg_loss)] rounded to 2
    decimals; absent below 15 values; 100 for every non-decreasing
    series of at least 15 values. *)
Theorem calculate_rsi_wilder (prices : list Q) :
  calculate_rsi prices 14 = Ok (rsi_spec prices) /\
  ((length prices < 15)%nat -> calculate_rsi prices 14 = Ok None) /\
  (non_decreasing prices -> (15 <= length prices)%nat ->
   calculate_rsi prices 14 = Ok (Some 100)).
Proof.
  rewrite calculate_rsi_eq. split; [reflexivity|split].
  - intros H. apply Nat.ltb_lt in H. unfold rsi_spec. rewrite H. reflexivity.
  - intros Hnd Hlen. apply Nat.ltb_ge in Hlen. unfold rsi_spec. rewrite Hlen. cbv zeta.
    assert (HL := losses_zero prices Hnd).
    assert (Hz : wilder (sum (firstn 14 (losses_of prices)) / 14) (skipn 14 (losses_of prices)) == 0).
    { apply wilder_zero; [|apply Forall_skipn', HL].
      rewrite (sum_zero _ (Forall_firstn' _ 14 _ HL)). reflexivity. }
    apply Qeq_bool_iff in Hz. rewrite Hz. reflexivity.
Qed.

(** C4 (witness): the series 1, 2, ..., 15. *)
Lemma calculate_rsi_wilder_witness :
  calculate_rsi (map Qnat (seq 1 15)) 14 = Ok (Some 100).
Proof.
  apply (proj2 (proj2 (calculate_rsi_wilder (map Qnat (seq 1 15))))).
  - intros i Hi. simpl in Hi.
    do 14 (destruct i as [|i]; [apply Qle_bool_iff; vm_compute; reflexivity|]). lia.
  - simpl. lia.
Defined.

(** ** C5 and C6: the history merge *)

(** The value at [k] after assigning the batch [rs] over [x]. *)
Definition upd_val (rs : list obs) (k : string) (x : option Q) : option Q :=
  fold_left (fun acc r => if String.eqb (date r) k then Some (nav r) else acc) rs x.

Definition key_lt {V} (a b : string * V) : Prop := String.compare (fst a) (fst b) = Lt.

Definition to_obs (kv : string * Q) : obs := {| date := fst kv; nav := snd kv |}.

Lemma get_dict_of_obs rs d k :
  PyDict.get (dict_of_obs d rs) k = upd_val rs k (PyDict.get d k).
Proof.
  revert d; induction rs as [|r rs IH]; intros d; simpl; [reflexivity|].
  rewrite IH, DictFacts.get_set, String.eqb_sym. reflexivity.
Qed.

Lemma upd_val_last rs k x :
  upd_val rs k x = match last_value rs k with Some v => Some v | None => x end.
Proof.
  unfold last_value, upd_val. revert x; induction rs as [|r rs IH]; intros x; simpl; [reflexivity|].
  destruct (String.eqb (date r) k).
  - rewrite !(IH (Some (nav r))). destruct (fold_left _ rs None); reflexivity.
  - apply IH.
Qed.

Lemma upd_val_idem rs k x : upd_val rs k (upd_val rs k x) = upd_val rs k x.
Proof.
  rewrite (upd_val_last rs k (upd_val rs k x)), (upd_val_last rs k x).
  destruct (last_value rs k); reflexivity.
Qed.

Lemma NoDup_keys_dict_of_obs rs d :
  NoDup (PyDict.keys d) -> NoDup (PyDict.keys (dict_of_obs d rs)).
Proof.
  revert d; induction rs as [|r rs IH]; intros d Hnd; simpl; [exact Hnd|].
  apply IH. apply DictFacts.NoDup_keys_set. exact Hnd.
Qed.

Lemma keys_dict_of_obs rs d k :
  In k (PyDict.keys (dict_of_obs d rs)) <-> In k (PyDict.keys d) \/ In k (map date rs).
Proof.
  revert d; induction rs as [|r rs IH]; intros d; simpl; [tauto|].
  rewrite IH, DictFacts.keys_set.
  split; intros H; repeat destruct H as [H|H]; subst; auto.
Qed.

Lemma ss_leb_lt {V} (l : list (string * V)) :
  StronglySorted (fun a b => key_le a b = true) l -> NoDup (PyDict.keys l) ->
  StronglySorted key_lt l.
Proof.
  induction 1 as [|a l Hs IH Hf]; intros Hnd; constructor.
  - apply IH. inversion Hnd; assumption.
  - inversion Hnd as [|? ? Hn _]; subst.
    eapply Forall_impl with (P := fun b => key_le a b = true /\ In (fst b) (PyDict.keys l)).
    + intros b [Hle Hin]. apply StrOrder.leb_neq_lt; [exact Hle|].
      intros Heq. apply Hn. rewrite Heq. exact Hin.
    + apply Forall_forall. intros b Hb. split.
      * rewrite Forall_forall in Hf. apply Hf. exact Hb.
      * apply in_map. exact Hb.
Qed.

(** Sorting a dict's items gives them strictly increasing keys. *)
Lemma sort_items_strict {V} (d : PyDict.t V) :
  NoDup (PyDict.keys d) -> StronglySorted key_lt (sort_by key_le d).
Proof.
  intros Hnd. apply ss_leb_lt.
  - apply Sorted_StronglySorted.
    + intros a b c. unfold key_le. apply StrOrder.leb_trans.
    + apply sort_by_sorted. intros a b. unfold key_le. apply StrOrder.leb_total_false.
  - apply (Permutation_NoDup (Permutation_map fst (Permutation_sym (sort_by_perm _ _)))). exact Hnd.
Qed.

Lemma get_sort_items {V} (d : PyDict.t V) k :
  NoDup (PyDict.keys d) -> PyDict.get (sort_by key_le d) k = PyDict.get d k.
Proof.
  intros Hnd. symmetry. apply DictFacts.get_perm; [exact Hnd|].
  apply Permutation_sym, sort_by_perm.
Qed.

(** Two dicts with strictly increasing keys and the same lookups are
    the same list. *)
Lemma strict_dict_ext {V} (l1 l2 : PyDict.t V) :
  StronglySorted key_lt l1 -> StronglySorted key_lt l2 ->
  (forall k, PyDict.get l1 k = PyDict.get l2 k) -> l1 = l2.
Proof.
  revert l2; induction l1 as [|[k1 v1] r1 IH]; intros l2 H1 H2 Hget.
  - destruct l2 as [|[k2 v2] r2]; [reflexivity|].
    specialize (Hget k2). simpl in Hget. rewrite String.eqb_refl in Hget. discriminate.
  - destruct l2 as [|[k2 v2] r2].
    + specialize (Hget k1). simpl in Hget. rewrite String.eqb_refl in Hget. discriminate.
    + apply StronglySorted_inv in H1 as [H1 F1]. apply StronglySorted_inv in H2 as [H2 F2].
      assert (Hnot1 : ~ In k1 (PyDict.keys r1)).
      { intros Hin. unfold PyDict.keys in Hin. apply in_map_iff in Hin as [[k v] [Hk Hin]].
        simpl in Hk; subst k. rewrite Forall_forall in F1. apply (StrOrder.lt_irrefl k1).
        apply (F1 _ Hin). }
      assert (Hnot2 : ~ In k2 (PyDict.keys r2)).
      { intros Hin. unfold PyDict.keys in Hin. apply in_map_iff in Hin as [[k v] [Hk Hin]].
        simpl in Hk; subst k. rewrite Forall_forall in F2. apply (StrOrder.lt_irrefl k2).
        apply (F2 _ Hin). }
      assert (Hk : k1 = k2).
      { destruct (String.eqb_spec k1 k2) as [|Hne]; [assumption|exfalso].
        pose proof (Hget k1) as G1. pose proof (Hget k2) as G2. simpl in G1, G2.
        rewrite String.eqb_refl in G1, G2.
        rewrite (proj2 (String.eqb_neq k1 k2) Hne) in G1.
        rewrite (proj2 (String.eqb_neq k2 k1) (not_eq_sym Hne)) in G2.
        apply eq_sym, DictFacts.get_Some_In in G1. apply DictFacts.get_Some_In in G2.
        rewrite Forall_forall in F1, F2.
        apply (StrOrder.lt_asym k1 k2); [apply (F1 _ G2)|apply (F2 _ G1)]. }
      subst k2.
      assert (Hv : v1 = v2).
      { specialize (Hget k1). simpl in Hget. rewrite String.eqb_refl in Hget. congruence. }
      subst v2. f_equal. apply IH; [exact H1|exact H2|].
      intros k. destruct (String.eqb_spec k k1) as [->|Hne].
      * rewrite !DictFacts.get_notin; auto.
      * specialize (Hget k). simpl in Hget.
        rewrite (proj2 (String.eqb_neq k k1) Hne) in Hget. exact Hget.
Qed.

Lemma dict_of_sorted_obs (L : PyDict.t Q) :
  NoDup (PyDict.keys L) -> dict_of_obs [] (map to_obs L) = L.
Proof.
  intros Hnd. unfold dict_of_obs.
  rewrite (DictFacts.fold_set_map date nav).
  - rewrite map_map. simpl. rewrite <- (map_id L) at 2. apply map_ext.
    intros [k v]. reflexivity.
  - rewrite map_map. exact Hnd.
Qed.

Lemma StronglySorted_NoDup_date (s : list obs) :
  StronglySorted date_lt s -> NoDup (map date s).
Proof.
  induction 1 as [|a s _ IH Hf]; simpl; constructor; [|exact IH].
  intros Hin. apply in_map_iff in Hin as [b [Hb Hin]].
  rewrite Forall_forall in Hf. specialize (Hf b Hin). unfold date_lt in Hf.
  rewrite Hb in Hf. apply (StrOrder.lt_irrefl (date a)). exact Hf.
Qed.

Lemma merge_batch_items S B :
  merge_batch S B = map to_obs (sort_by key_le (dict_of_obs (dict_of_obs [] S) B)).
Proof. reflexivity. Qed.

Lemma NoDup_keys_merge_dict S B :
  NoDup (PyDict.keys (dict_of_obs (dict_of_obs [] S) B)).
Proof. apply NoDup_keys_dict_of_obs, NoDup_keys_dict_of_obs. constructor. Qed.

Lemma merge_batch_idem S B : merge_batch (merge_batch S B) B = merge_batch S B.
Proof.
  rewrite (merge_batch_items S B).
  set (D0 := dict_of_obs (dict_of_obs [] S) B).
  set (L := sort_by key_le D0).
  assert (HD0 : NoDup (PyDict.keys D0)) by apply NoDup_keys_merge_dict.
  assert (HL : NoDup (PyDict.keys L)).
  { apply (Permutation_NoDup (Permutation_map fst (Permutation_sym (sort_by_perm _ _)))).
    exact HD0. }
  rewrite merge_batch_items, dict_of_sorted_obs by exact HL.
  f_equal. apply strict_dict_ext.
  - apply sort_items_strict, NoDup_keys_dict_of_obs. exact HL.
  - apply sort_items_strict. exact HD0.
  - intros k. rewrite get_sort_items by (apply NoDup_keys_dict_of_obs; exact HL).
    unfold L. rewrite get_dict_of_obs, !get_sort_items by exact HD0.
    unfold D0. rewrite get_dict_of_obs. apply upd_val_idem.
Qed.

(** C5.  Merging a batch twice gives the same series as merging it
    once, and merging an empty batch returns the existing series. *)
Theorem merge_idempotent (S B : list obs) :
  merge (merge S B) B = merge S B /\ merge S [] = S.
Proof.
  split; [|reflexivity].
  destruct B as [|b B']; [reflexivity|].
  change (merge_batch (merge_batch S (b :: B')) (b :: B') = merge_batch S (b :: B')).
  apply merge_batch_idem.
Qed.

(** C6.  After a merge (of a non-empty batch, or of any batch into a
    series that already satisfies the Series invariant) the series is
    strictly increasing by date, has one observation per date, keeps
    every date of the existing series, and holds at each date of the
    batch the last value the batch gives for it. *)
Theorem merge_series_invariants (S B : list obs) :
  (B <> [] \/ series_ok S) ->
  let R := merge S B in
  series_ok R /\ NoDup (map date R) /\
  (forall o, In o S -> In (date o) (map date R)) /\
  (forall d v, last_value B d = Some v -> In {| date := d; nav := v |} R).
Proof.
  intros H R.
  destruct B as [|b B'].
  - destruct H as [H|H]; [congruence|]. unfold R; simpl.
    split; [exact H|split; [apply StronglySorted_NoDup_date; exact H|split]].
    + intros o Ho. apply in_map. exact Ho.
    + intros d v Hv. discriminate.
  - set (B := b :: B') in *.
    assert (HR : R = map to_obs (sort_by key_le (dict_of_obs (dict_of_obs [] S) B))) by reflexivity.
    set (D0 := dict_of_obs (dict_of_obs [] S) B) in *.
    assert (HD0 : NoDup (PyDict.keys D0)) by apply NoDup_keys_merge_dict.
    assert (Hok : series_ok R).
    { rewrite HR. apply StronglySorted_map. apply sort_items_strict. exact HD0. }
    split; [exact Hok|split; [apply StronglySorted_NoDup_date; exact Hok|split]].
    + intros o Ho. rewrite HR, map_map.
      change (In (date o) (PyDict.keys (sort_by key_le D0))).
      apply (Permutation_in _ (Permutation_map fst (Permutation_sym (sort_by_perm _ _)))).
      unfold D0. apply keys_dict_of_obs. left. apply keys_dict_of_obs. right.
      apply in_map. exact Ho.
    + intros d v Hv. rewrite HR. apply (in_map to_obs _ (d, v)).
      apply DictFacts.get_Some_In. rewrite get_sort_items by exact HD0.
      unfold D0. rewrite get_dict_of_obs, upd_val_last, Hv. reflexivity.
Qed.

(** C6 (witness). *)
Lemma merge_series_invariants_witness :
  let R := merge history_S0 batch_B0 in
  series_ok R /\ NoDup (map date R) /\
  (forall o, In o history_S0 -> In (date o) (map date R)) /\
  (forall d v, last_value batch_B0 d = Some v -> In {| date := d; nav := v |} R).
Proof.
  apply (merge_series_invariants history_S0 batch_B0). left. vm_compute. discriminate.
Defined.

Lemma truthy_false x : truthy x = false -> x == 0.
Proof. unfold truthy. intros H. apply Qeq_bool_iff. destruct (Qeq_bool x 0); [reflexivity|discriminate]. Qed.

Lemma momentum_spec f : momentum_score f == spec_score f.
Proof.
  unfold momentum_score, spec_score, opt0.
  destruct (pct_1w f) as [a|]; [destruct (truthy a) eqn:Ha|];
  destruct (pct_1m f) as [b|]; try (destruct (truthy b) eqn:Hb);
  destruct (rsi_14 f) as [r|]; try (destruct (truthy r));
  repeat match goal with H : truthy ?x = false |- _ => apply truthy_false in H; rewrite H; clear H end;
  ring.
Qed.

Lemma round_half_even_compat x y : x == y -> round_half_even x = round_half_even y.
Proof.
  intros H. unfold round_half_even. rewrite (Qfloor_comp x y H).
  assert (Hc : Qcompare (x - inject_Z (Qfloor y)) (1 # 2) = Qcompare (y - inject_Z (Qfloor y)) (1 # 2)).
  { apply Qcompare_comp; [rewrite H|]; reflexivity. }
  rewrite Hc. reflexivity.
Qed.

Lemma py_round_compat n x y : x == y -> py_round n x = py_round n y.
Proof.
  intros H. unfold py_round. cbv zeta.
  rewrite (round_half_even_compat (x * inject_Z (10 ^ Z.of_nat n)) (y * inject_Z (10 ^ Z.of_nat n)))
    by (rewrite H; reflexivity).
  reflexivity.
Qed.

Lemma scoreable_spec l :
  scoreable l = map (fun f => (fund_code f, py_round 4 (spec_score f))) l.
Proof.
  unfold scoreable. apply map_ext. intros f. rewrite (py_round_compat 4 _ _ (momentum_spec f)).
  reflexivity.
Qed.

Lemma Sorted_weaken {A} (R R' : A -> A -> Prop) l :
  (forall a b, R a b -> R' a b) -> Sorted R l -> Sorted R' l.
Proof.
  intros HRR. induction 1 as [|a l _ IH Hhd]; constructor; [exact IH|].
  destruct Hhd; constructor. apply HRR. assumption.
Qed.

Lemma rank_funds_order l :
  NoDup (map fund_code l) ->
  map (fun e => (fst e, score (snd e))) (rank_funds l) = sort_by score_ge (scoreable l).
Proof.
  intros Hnd. rewrite rank_funds_map by exact Hnd. rewrite map_map.
  rewrite <- (enumerate_snd 0 (sort_by score_ge (scoreable l))) at 2.
  apply map_ext. intros [i [c s]]. reflexivity.
Qed.

(** C7.  For funds with distinct codes, [rank_funds] lists the funds
    with the dense ranks 1..N; the (code, score) pairs, in rank order,
    are a permutation of the funds with the composite score of the
    spec (absent or zero inputs contributing 0) rounded to 4 decimals,
    sorted by descending score, and funds of equal score keep their
    input order.  [rank_funds] being a function, two runs on the same
    input give the same ranks. *)
Theorem rank_funds_dense_ordered (l : list snapshot) :
  NoDup (map fund_code l) ->
  let R := rank_funds l in
  let scored := map (fun f => (fund_code f, py_round 4 (spec_score f))) l in
  let order := map (fun e => (fst e, score (snd e))) R in
  map (fun e => rank (snd e)) R = seq 1 (length l) /\
  Permutation order scored /\
  Sorted (fun a b => snd b <= snd a) order /\
  (forall s, filter (fun p => Qeq_bool (snd p) s) order
             = filter (fun p => Qeq_bool (snd p) s) scored).
Proof.
  intros Hnd R scored order.
  assert (Hord : order = sort_by score_ge (scoreable l)) by (apply rank_funds_order; exact Hnd).
  assert (Hsc : scoreable l = scored) by apply scoreable_spec.
  split; [|split; [|split]].
  - unfold R. rewrite rank_funds_map by exact Hnd. rewrite map_map. simpl.
    rewrite <- (map_map fst S), enumerate_fst, seq_shift.
    rewrite (Permutation_length (sort_by_perm _ _)). unfold scoreable. rewrite length_map.
    reflexivity.
  - rewrite Hord, <- Hsc. apply sort_by_perm.
  - rewrite Hord. apply (Sorted_weaken (fun a b => score_ge a b = true)).
    + intros a b H. apply Qle_bool_iff. exact H.
    + apply sort_by_sorted. exact score_ge_total.
  - intros s. rewrite Hord, <- Hsc. apply filter_sort_by.
    intros x y Hx Hy. unfold score_ge. apply Qeq_bool_iff in Hx, Hy. apply Qle_bool_iff.
    rewrite Hx, Hy. apply Qle_refl.
Qed.

(** C7 (witness). *)
Lemma rank_funds_dense_ordered_witness :
  let l := [fund_A; fund_B; fund_C] in
  let R := rank_funds l in
  let scored := map (fun f => (fund_code f, py_round 4 (spec_score f))) l in
  let order := map (fun e => (fst e, score (snd e))) R in
  map (fun e => rank (snd e)) R = seq 1 (length l) /\
  Permutation order scored /\
  Sorted (fun a b => snd b <= snd a) order /\
  (forall s, filter (fun p => Qeq_bool (snd p) s) order
             = filter (fun p => Qeq_bool (snd p) s) scored).
Proof.
  apply (rank_funds_dense_ordered [fund_A; fund_B; fund_C]).
  vm_compute. repeat constructor; simpl; intuition discriminate.
Defined.

(** C8.  A fetch failure that is an [Exception] is downgraded to the
    empty list, and the pipeline step then leaves the stored history
    unchanged and computes the indicators from the history already
    stored for the fund; the same holds for any fetch that yields the
    empty list.  A failure that is not an [Exception] (KeyboardInterrupt,
    SystemExit) leaves the fetch and the pipeline step, whatever the
    fund and the state. *)
Theorem fetch_failure_keeps_history (f : fund) (e : exn) (st : pipeline_state) :
  (is_Exception e = true ->
   fetch_nav_from_morningstar (Err e) = Ok [] /\
   pipeline_step f (Err e) st =
     (indicators <- compute_indicators (code f) (get_or_nil (all_nav_history st) (code f)) ;;
      Ok {| all_nav_history := all_nav_history st;
            all_indicators :=
              match indicators with
              | Some i => all_indicators st ++ [set_fund_name i (name f)]
              | None => all_indicators st
              end |})) /\
  (forall nav_response, fetch_nav_from_morningstar nav_response = Ok [] ->
   pipeline_step f nav_response st =
     (indicators <- compute_indicators (code f) (get_or_nil (all_nav_history st) (code f)) ;;
      Ok {| all_nav_history := all_nav_history st;
            all_indicators :=
              match indicators with
              | Some i => all_indicators st ++ [set_fund_name i (name f)]
              | None => all_indicators st
              end |})) /\
  (is_Exception e = false ->
   fetch_nav_from_morningstar (Err e) = Err e /\ pipeline_step f (Err e) st = Err e).
Proof.
  assert (Hempty : forall nav_response, fetch_nav_from_morningstar nav_response = Ok [] ->
   pipeline_step f nav_response st =
     (indicators <- compute_indicators (code f) (get_or_nil (all_nav_history st) (code f)) ;;
      Ok {| all_nav_history := all_nav_history st;
            all_indicators :=
              match indicators with
              | Some i => all_indicators st ++ [set_fund_name i (name f)]
              | None => all_indicators st
              end |})).
  { intros nav_response Hf. unfold pipeline_step. rewrite Hf. reflexivity. }
  assert (Hfe : fetch_nav_from_morningstar (Err e)
                = if is_Exception e then Ok [] else Err e) by reflexivity.
  split; [|split; [exact Hempty|]].
  - intros He. rewrite He in Hfe. split; [exact Hfe|]. apply Hempty. exact Hfe.
  - intros He. rewrite He in Hfe. split; [exact Hfe|].
    unfold pipeline_step. rewrite Hfe. reflexivity.
Qed.

(** C8 (witness): with PGF's falling series stored, a transport error
    keeps the series and the snapshot is computed from it; a
    [KeyboardInterrupt] leaves the step. *)
Lemma fetch_failure_keeps_history_witness :
  fetch_nav_from_morningstar (Err OSError) = Ok [] /\
  pipeline_step PGF (Err OSError)
    {| all_nav_history := [("PGF"%string, falling_history)]; all_indicators := [] |}
  = Ok {| all_nav_history := [("PGF"%string, falling_history)];
          all_indicators := [set_fund_name falling_snapshot (name PGF)] |} /\
  pipeline_step PGF (Err KeyboardInterrupt) empty_state = Err KeyboardInterrupt.
Proof.
  destruct (fetch_failure_keeps_history PGF OSError
              {| all_nav_history := [("PGF"%string, falling_history)]; all_indicators := [] |})
    as [H1 _].
  destruct (H1 eq_refl) as [A B]. split; [exact A|]. split.
  - rewrite B. vm_compute. reflexivity.
  - destruct (fetch_failure_keeps_history PGF KeyboardInterrupt empty_state) as [_ [_ H2]].
    exact (proj2 (H2 eq_refl)).
Defined.

(** C8 (counterexample): a [KeyboardInterrupt] raised during the fetch
    is not an [Exception]; it leaves the fetch and the pipeline step. *)
Lemma fetch_keyboard_interrupt_propagates :
  fetch_nav_from_morningstar (Err KeyboardInterrupt) = Err KeyboardInterrupt /\
  pipeline_step PGF (Err KeyboardInterrupt) empty_state = Err KeyboardInterrupt.
Proof. split; reflexivity. Qed.

(** C9 (code bug).  A fund whose NAV fell at every step of 15 days has
    the defined RSI 0.00, which [rsi_signal] (an [is None] test) reports
    as OVERSOLD; the [oversold_funds] view, whose truthiness test drops
    a zero RSI, leaves it out although 0 <= 35. *)
Theorem oversold_funds_drops_zero_rsi :
  exists st snap r,
    pipeline_step PGF (Ok falling_response) empty_state = Ok st /\
    all_indicators st = [snap] /\
    rsi_14 snap = Some r /\ r == 0 /\ r <= 35 /\
    snap_rsi_signal snap = "OVERSOLD"%string /\
    map d_rsi_14 (funds (build_dashboard (all_indicators st) [])) = [Some r] /\
    oversold_funds (build_dashboard (all_indicators st) []) = [].
Proof.
  pose (st := match pipeline_step PGF (Ok falling_response) empty_state with
              | Ok s => s | Err _ => empty_state end).
  exists st, (hd (mk_snapshot "" None None None) (all_indicators st)), (0 # 100).
  repeat match goal with |- _ /\ _ => split end;
    vm_compute; first [reflexivity | discriminate | intros Hc; discriminate Hc].
Qed.

Lemma flow_proxy_absent (l : list snapshot) (f : snapshot) :
  NoDup (map fund_code l) -> In f l -> pct_1m f = None ->
  PyDict.get (compute_flow_proxy l) (fund_code f) = None.
Proof.
  intros Hnd Hin Hnone. apply DictFacts.get_notin. intros Hk.
  destruct (flow_proxy_keys l _ Hnd Hk) as [g [Hg Hgf]].
  apply filter_In in Hg as [Hgl Hgp].
  rewrite (NoDup_map_inj fund_code l g f Hnd Hgl Hin Hgf) in Hgp.
  unfold has_pct_1m in Hgp. rewrite Hnone in Hgp. discriminate.
Qed.

(** C10.  A fund with a snapshot but no 1-month change is listed in the
    dashboard with the flow signal "N/A", an empty flow note and no
    [flow_vs_category]. *)
Theorem pct_1m_absent_flow_na (l : list snapshot) (all_holdings : PyDict.t (list string))
  (ind : snapshot) :
  NoDup (map fund_code l) -> In ind l -> pct_1m ind = None ->
  let r := dashboard_record (compute_flow_proxy l) (rank_funds l) all_holdings ind in
  flow_signal r = "N/A"%string /\ flow_note r = ""%string /\ flow_vs_category r = None /\
  In r (funds (build_dashboard l all_holdings)).
Proof.
  intros Hnd Hin Hnone r.
  assert (Hg : PyDict.get (compute_flow_proxy l) (fund_code ind) = None)
    by (apply flow_proxy_absent; assumption).
  split; [|split; [|split]]; try (unfold r, dashboard_record; simpl; rewrite Hg; reflexivity).
  change (In r (sort_by (fun a b => Nat.leb (rank_key a) (rank_key b))
                  (map (dashboard_record (compute_flow_proxy l) (rank_funds l) all_holdings) l))).
  apply (Permutation_in _ (Permutation_sym (sort_by_perm _ _))).
  apply in_map. exact Hin.
Qed.

(** C10 (witness): fund C of the three-fund example. *)
Lemma pct_1m_absent_flow_na_witness :
  let r := dashboard_record (compute_flow_proxy [fund_A; fund_B; fund_C])
             (rank_funds [fund_A; fund_B; fund_C]) [] fund_C in
  flow_signal r = "N/A"%string /\ flow_note r = ""%string /\ flow_vs_category r = None /\
  In r (funds (build_dashboard [fund_A; fund_B; fund_C] [])).
Proof.
  apply (pct_1m_absent_flow_na [fund_A; fund_B; fund_C] [] fund_C).
  - vm_compute. repeat constructor; simpl; intuition discriminate.
  - simpl. right. right. left. reflexivity.
  - reflexivity.
Defined.

(* ================================================================== *)
(** * Further properties of the code *)

(** ** Rounding *)

Lemma inject_Z_succ z : inject_Z (z + 1) == inject_Z z + 1.
Proof. rewrite inject_Z_plus. reflexivity. Qed.

Lemma round_half_even_bounds x :
  inject_Z (round_half_even x) - (1 # 2) <= x /\ x <= inject_Z (round_half_even x) + (1 # 2).
Proof.
  unfold round_half_even.
  assert (H1 : inject_Z (Qfloor x) <= x) by apply Qfloor_le.
  assert (H2 : x < inject_Z (Qfloor x + 1)) by apply Qlt_floor.
  rewrite inject_Z_succ in H2.
  destruct (Qcompare (x - inject_Z (Qfloor x)) (1 # 2)) eqn:E.
  - apply Qeq_alt in E. destruct (Z.even (Qfloor x)); [|rewrite inject_Z_succ]; split; lra.
  - apply Qlt_alt in E. split; lra.
  - apply Qgt_alt in E. rewrite inject_Z_succ. split; lra.
Qed.

Lemma round_half_even_mono x y : x <= y -> (round_half_even x <= round_half_even y)%Z.
Proof.
  intros H. destruct (Z_le_gt_dec (round_half_even x) (round_half_even y)) as [|Hgt]; [assumption|].
  exfalso.
  assert (Hz : (round_half_even y + 1 <= round_half_even x)%Z) by lia.
  rewrite Zle_Qle, inject_Z_succ in Hz.
  destruct (round_half_even_bounds x) as [Hx1 Hx2].
  destruct (round_half_even_bounds y) as [Hy1 Hy2].
  assert (Hxy : x == y) by lra.
  rewrite (round_half_even_compat x y Hxy) in Hgt. lia.
Qed.

Lemma pow10_pos n : 0 < inject_Z (10 ^ Z.of_nat n).
Proof.
  change 0 with (inject_Z 0). rewrite <- Zlt_Qlt. apply Z.pow_pos_nonneg; lia.
Qed.

Lemma py_round_mono n x y : x <= y -> py_round n x <= py_round n y.
Proof.
  intros H. unfold py_round. cbv zeta. unfold Qdiv.
  pose proof (pow10_pos n) as Hp.
  apply Qmult_le_compat_r; [|apply Qlt_le_weak, Qinv_lt_0_compat; exact Hp].
  rewrite <- Zle_Qle. apply round_half_even_mono.
  apply Qmult_le_compat_r; [exact H|apply Qlt_le_weak; exact Hp].
Qed.

Lemma py_round_between n lo x hi :
  lo <= x -> x <= hi -> py_round n lo <= py_round n x /\ py_round n x <= py_round n hi.
Proof. intros H1 H2. split; apply py_round_mono; assumption. Qed.

(** ** RSI *)

Lemma div_nonneg a b : 0 <= a -> 0 < b -> 0 <= a / b.
Proof. intros Ha Hb. apply Qle_shift_div_l; [exact Hb|]. lra. Qed.

(** X1.  A defined RSI(14) lies between 0 and 100. *)
Theorem calculate_rsi_range (prices : list Q) (r : Q) :
  calculate_rsi prices 14 = Ok (Some r) -> 0 <= r <= 100.
Proof.
  rewrite calculate_rsi_eq. intros H. injection H as H.
  unfold rsi_spec in H. destruct (Nat.ltb (length prices) 15); [discriminate|].
  set (ag := wilder (sum (firstn 14 (gains_of prices)) / 14) (skipn 14 (gains_of prices))) in H.
  set (al := wilder (sum (firstn 14 (losses_of prices)) / 14) (skipn 14 (losses_of prices))) in H.
  assert (Hag : 0 <= ag).
  { apply wilder_nonneg; [apply div_nonneg; [|reflexivity]|].
    - apply sum_nonneg, Forall_firstn', gains_nonneg.
    - apply Forall_skipn', gains_nonneg. }
  assert (Hal : 0 <= al).
  { apply wilder_nonneg; [apply div_nonneg; [|reflexivity]|].
    - apply sum_nonneg, Forall_firstn', losses_nonneg.
    - apply Forall_skipn', losses_nonneg. }
  destruct (Qeq_bool al 0) eqn:E; injection H as <-; [split; lra|].
  assert (Hal' : 0 < al).
  { apply Qle_lteq in Hal as [Hal|Hal]; [exact Hal|].
    exfalso. assert (Hc : Qeq_bool al 0 = true) by (apply Qeq_bool_iff; symmetry; exact Hal).
    congruence. }
  assert (Hrs : 0 <= ag / al) by (apply div_nonneg; assumption).
  assert (Hq0 : 0 <= 100 / (1 + ag / al)) by (apply div_nonneg; lra).
  assert (Hq1 : 100 / (1 + ag / al) <= 100).
  { apply Qle_shift_div_r; lra. }
  destruct (py_round_between 2 0 (100 - 100 / (1 + ag / al)) 100) as [L U]; [lra|lra|].
  assert (H0 : py_round 2 0 == 0) by (vm_compute; reflexivity).
  assert (H100 : py_round 2 100 == 100) by (vm_compute; reflexivity).
  rewrite H0 in L. rewrite H100 in U. split; assumption.
Qed.

(** X1 (witness): the zig-zag series has RSI 53.59. *)
Lemma calculate_rsi_range_witness :
  calculate_rsi zigzag_prices 14 = Ok (Some (5359 # 100)) /\ 0 <= 5359 # 100 <= 100.
Proof.
  split; [vm_compute; reflexivity|].
  apply (calculate_rsi_range zigzag_prices). vm_compute. reflexivity.
Defined.

(** ** Moving average, percentage change, volatility *)

Lemma Qnat_succ n : Qnat (S n) == Qnat n + 1.
Proof. unfold Qnat. rewrite Nat2Z.inj_succ, <- Z.add_1_r. apply inject_Z_succ. Qed.

Lemma Qnat_nonneg n : 0 <= Qnat n.
Proof. unfold Qnat. change 0 with (inject_Z 0). rewrite <- Zle_Qle. lia. Qed.

Lemma Qnat_pos n : (0 < n)%nat -> 0 < Qnat n.
Proof. intros H. unfold Qnat. change 0 with (inject_Z 0). rewrite <- Zlt_Qlt. lia. Qed.

Lemma Qnat_nz n : (0 < n)%nat -> ~ Qnat n == 0.
Proof. intros H Hc. pose proof (Qnat_pos n H). lra. Qed.

Lemma sum_between lo hi l :
  Forall (fun x => lo <= x <= hi) l ->
  Qnat (length l) * lo <= sum l /\ sum l <= Qnat (length l) * hi.
Proof.
  induction 1 as [|x l [Hx1 Hx2] _ [IH1 IH2]]; simpl.
  - assert (H0 : forall q, Qnat 0 * q == 0) by (intros q; unfold Qnat; simpl; ring).
    rewrite !H0. split; apply Qle_refl.
  - rewrite Qnat_succ. split; lra.
Qed.

Lemma length_lastn {A} n (l : list A) : (n <= length l)%nat -> length (lastn n l) = n.
Proof. intros H. unfold lastn. rewrite length_skipn. lia. Qed.

(** X2.  With a positive period and at least that many prices, the
    moving average is defined and, like the window it averages, lies
    between any lower and upper bound of the window's prices (both
    rounded as the average is, to 4 decimals). *)
Theorem calculate_ma_within (prices : list Q) (period : nat) (lo hi : Q) :
  (0 < period)%nat -> (period <= length prices)%nat ->
  Forall (fun x => lo <= x <= hi) (lastn period prices) ->
  exists m, calculate_ma prices period = Ok (Some m) /\
            py_round 4 lo <= m /\ m <= py_round 4 hi.
Proof.
  intros Hp Hl Hw. unfold calculate_ma.
  replace (Nat.ltb (length prices) period) with false by (symmetry; apply Nat.ltb_ge; lia).
  rewrite py_div_ok by (apply Qnat_nz; exact Hp). simpl.
  eexists; split; [reflexivity|].
  destruct (sum_between lo hi _ Hw) as [S1 S2]. rewrite length_lastn in S1, S2 by exact Hl.
  pose proof (Qnat_pos period Hp) as HP.
  apply py_round_between.
  - apply Qle_shift_div_l; [exact HP|]. lra.
  - apply Qle_shift_div_r; [exact HP|]. lra.
Qed.

(** X2 (witness): the 5-day average of the zig-zag series, whose last
    five prices lie between 10 and 14. *)
Lemma calculate_ma_within_witness :
  exists m, calculate_ma zigzag_prices 5 = Ok (Some m) /\
            py_round 4 10 <= m /\ m <= py_round 4 14.
Proof.
  apply (calculate_ma_within zigzag_prices 5 10 14).
  - lia.
  - vm_compute. lia.
  - vm_compute. repeat constructor; discriminate.
Defined.

(** X3.  [calculate_pct_change] never raises: it is absent when there
    are fewer than [days + 1] prices or the base price is 0; otherwise
    its value has the sign of [(new - old) / old] (or is 0). *)
Theorem calculate_pct_change_sign (prices : list Q) (days : nat) :
  let old := nth (length prices - (days + 1)) prices 0 in
  let new := nth (length prices - 1) prices 0 in
  (calculate_pct_change prices days = Ok None /\
   ((length prices < days + 1)%nat \/ old == 0)) \/
  (exists r, calculate_pct_change prices days = Ok (Some r) /\
     (days + 1 <= length prices)%nat /\ ~ old == 0 /\
     (0 <= (new - old) / old -> 0 <= r) /\
     ((new - old) / old <= 0 -> r <= 0)).
Proof.
  intros old new. unfold calculate_pct_change. fold old new.
  destruct (Nat.ltb (length prices) (days + 1)) eqn:El.
  - left. split; [reflexivity|]. left. apply Nat.ltb_lt. exact El.
  - destruct (Qeq_bool old 0) eqn:Eo.
    + left. split; [reflexivity|]. right. apply Qeq_bool_iff. exact Eo.
    + assert (Hnz : ~ old == 0) by (intros Hc; apply Qeq_bool_iff in Hc; congruence).
      rewrite py_div_ok by exact Hnz. right. eexists; split; [reflexivity|].
      split; [apply Nat.ltb_ge in El; lia|]. split; [exact Hnz|].
      assert (H0 : py_round 2 0 == 0) by (vm_compute; reflexivity).
      split; intros H.
      * rewrite <- H0. apply py_round_mono. lra.
      * rewrite <- H0. apply py_round_mono. lra.
Qed.

Lemma math_sqrt_nonneg x s : math_sqrt x = Ok s -> 0 <= s.
Proof.
  unfold math_sqrt. destruct (Qltb x 0); [discriminate|]. intros H. injection H as <-.
  unfold Qle. cbn [Qnum Qden]. rewrite Z.mul_0_l, Z.mul_1_r. apply Z.sqrt_nonneg.
Qed.

(** X4.  A defined volatility is never negative. *)
Theorem calculate_volatility_nonneg (prices : list Q) (period : nat) (v : Q) :
  calculate_volatility prices period = Ok (Some v) -> 0 <= v.
Proof.
  unfold calculate_volatility. destruct (Nat.ltb (length prices) (period + 1)); [discriminate|].
  destruct (mapM _ _) as [returns|e]; simpl; [|discriminate].
  destruct (py_div _ _) as [mean|e]; simpl; [|discriminate].
  destruct (py_div _ _) as [variance|e]; simpl; [|discriminate].
  destruct (math_sqrt variance) as [s|e] eqn:Es; simpl; [|discriminate].
  intros H. injection H as <-.
  assert (H0 : py_round 2 0 == 0) by (vm_compute; reflexivity).
  rewrite <- H0. apply py_round_mono. pose proof (math_sqrt_nonneg _ _ Es). lra.
Qed.

(** X4 (witness). *)
Lemma calculate_volatility_nonneg_witness :
  exists v, calculate_volatility zigzag_prices 5 = Ok (Some v) /\ 0 <= v.
Proof.
  destruct (calculate_volatility zigzag_prices 5) as [[v|]|e] eqn:E;
    try (vm_compute in E; discriminate E).
  exists v. split; [reflexivity|]. apply (calculate_volatility_nonneg zigzag_prices 5 v). exact E.
Defined.

(** X3 (instance). *)
Lemma calculate_pct_change_sign_witness :
  let old := nth (length zigzag_prices - (21 + 1)) zigzag_prices 0 in
  let new := nth (length zigzag_prices - 1) zigzag_prices 0 in
  (calculate_pct_change zigzag_prices 21 = Ok None /\
   ((length zigzag_prices < 21 + 1)%nat \/ old == 0)) \/
  (exists r, calculate_pct_change zigzag_prices 21 = Ok (Some r) /\
     (21 + 1 <= length zigzag_prices)%nat /\ ~ old == 0 /\
     (0 <= (new - old) / old -> 0 <= r) /\
     ((new - old) / old <= 0 -> r <= 0)).
Proof. exact (calculate_pct_change_sign zigzag_prices 21). Defined.

(** ** [compute_indicators] *)

Lemma mapM_ok_ex {A B} (f : A -> res B) l :
  (forall x, In x l -> exists y, f x = Ok y) ->
  exists ys, mapM f l = Ok ys /\ length ys = length l.
Proof.
  induction l as [|x l IH]; simpl; intros Hf; [exists []; split; reflexivity|].
  destruct (Hf x (or_introl eq_refl)) as [y Hy]. rewrite Hy. simpl.
  destruct IH as [ys [Hys Hl]]; [intros z Hz; apply Hf; right; exact Hz|].
  rewrite Hys. simpl. exists (y :: ys). split; [reflexivity|simpl; congruence].
Qed.

Lemma ma_ok p n : (0 < n)%nat -> exists o, calculate_ma p n = Ok o.
Proof.
  intros Hn. unfold calculate_ma. destruct (Nat.ltb (length p) n); [eexists; reflexivity|].
  rewrite py_div_ok by (apply Qnat_nz; exact Hn). eexists; reflexivity.
Qed.

Lemma pct_change_ok p d : exists o, calculate_pct_change p d = Ok o.
Proof.
  unfold calculate_pct_change. destruct (Nat.ltb _ _); [eexists; reflexivity|].
  destruct (Qeq_bool _ 0) eqn:E; [eexists; reflexivity|].
  rewrite py_div_ok; [eexists; reflexivity|].
  intros Hc. apply Qeq_bool_iff in Hc. congruence.
Qed.

Lemma sum_sq_nonneg (l : list Q) m : 0 <= sum (map (fun r => (r - m) ^ 2) l).
Proof.
  apply sum_nonneg. apply Forall_forall. intros x Hx. apply in_map_iff in Hx as [r [<- _]].
  change ((r - m) ^ 2) with ((r - m) * (r - m)). set (y := r - m). nra.
Qed.

Lemma volatility_ok p n :
  (0 < n)%nat -> Forall (fun x => ~ x == 0) p -> exists o, calculate_volatility p n = Ok o.
Proof.
  intros Hn Hp. unfold calculate_volatility.
  destruct (Nat.ltb (length p) (n + 1)) eqn:El; [eexists; reflexivity|].
  apply Nat.ltb_ge in El.
  destruct (mapM_ok_ex (fun i => py_div (nth i p 0 - nth (i - 1) p 0) (nth (i - 1) p 0))
              (seq (length p - n) n)) as [rs [Hrs Hlen]].
  { intros i Hi. apply in_seq in Hi. rewrite py_div_ok; [eexists; reflexivity|].
    rewrite Forall_forall in Hp. apply Hp, nth_In. lia. }
  rewrite Hrs. cbn [bind]. rewrite length_seq in Hlen. rewrite Hlen.
  rewrite py_div_ok by (apply Qnat_nz; exact Hn). cbn [bind].
  rewrite py_div_ok by (apply Qnat_nz; exact Hn). cbn [bind].
  unfold math_sqrt.
  replace (Qltb _ 0) with false.
  - eexists; reflexivity.
  - symmetry. unfold Qltb. apply negb_false_iff, Qle_bool_iff.
    apply div_nonneg; [apply sum_sq_nonneg|apply Qnat_pos; exact Hn].
Qed.

Lemma length_sort_by {A} (le : A -> A -> bool) l : length (sort_by le l) = length l.
Proof. apply Permutation_length, sort_by_perm. Qed.

(** X5.  [compute_indicators] raises only on a zero NAV: when every NAV
    of the history is non-zero it returns (a snapshot or [None]). *)
Theorem compute_indicators_nonzero_ok (code : string) (nav_history : list obs) :
  Forall (fun o => ~ nav o == 0) nav_history ->
  exists r, compute_indicators code nav_history = Ok r.
Proof.
  intros Hnz. unfold compute_indicators.
  destruct (Nat.ltb (length nav_history) 5); [eexists; reflexivity|].
  cbv zeta.
  assert (Hp : Forall (fun x => ~ x == 0) (map nav (sort_by date_le nav_history))).
  { apply Forall_map. rewrite Forall_forall in Hnz |- *. intros o Ho. apply Hnz.
    apply (Permutation_in _ (sort_by_perm date_le _)). exact Ho. }
  rewrite !calculate_rsi_eq. cbn [bind].
  repeat match goal with
  | |- context [calculate_ma ?p ?n] =>
      let E := fresh in destruct (ma_ok p n ltac:(lia)) as [? E]; rewrite E; cbn [bind]
  | |- context [calculate_pct_change ?p ?n] =>
      let E := fresh in destruct (pct_change_ok p n) as [? E]; rewrite E; cbn [bind]
  | |- context [calculate_volatility ?p ?n] =>
      let E := fresh in destruct (volatility_ok p n ltac:(lia) Hp) as [? E]; rewrite E; cbn [bind]
  end.
  eexists; reflexivity.
Qed.

(** X5 (witness): the falling series (all NAVs positive). *)
Lemma compute_indicators_nonzero_ok_witness :
  exists r, compute_indicators "PGF" falling_history = Ok r.
Proof.
  apply (compute_indicators_nonzero_ok "PGF" falling_history).
  vm_compute. repeat constructor; discriminate.
Defined.

Ltac peel H :=
  repeat match type of H with
  | context [bind ?m _] =>
      let E := fresh "E" in
      destruct m as [?|?] eqn:E; cbn [bind] in H; [|discriminate H]
  end.

Lemma ma_none p n o : calculate_ma p n = Ok o -> (o = None <-> (length p < n)%nat).
Proof.
  unfold calculate_ma. destruct (Nat.ltb (length p) n) eqn:E.
  - intros H. injection H as <-. apply Nat.ltb_lt in E. tauto.
  - apply Nat.ltb_ge in E. destruct (py_div _ _); cbn [bind]; intros H; [|discriminate H].
    injection H as <-. split; [discriminate|lia].
Qed.

Lemma volatility_none p n o :
  calculate_volatility p n = Ok o -> (o = None <-> (length p < n + 1)%nat).
Proof.
  unfold calculate_volatility. destruct (Nat.ltb (length p) (n + 1)) eqn:E.
  - intros H. injection H as <-. apply Nat.ltb_lt in E. tauto.
  - apply Nat.ltb_ge in E. intros H. peel H. injection H as <-. split; [discriminate|lia].
Qed.

Lemma rsi_spec_none p : rsi_spec p = None <-> (length p < 15)%nat.
Proof.
  unfold rsi_spec. destruct (Nat.ltb (length p) 15) eqn:E.
  - apply Nat.ltb_lt in E. tauto.
  - apply Nat.ltb_ge in E. destruct (Qeq_bool _ 0); split; (discriminate || lia).
Qed.

Lemma trend_na p a b : trend_signal p a b = "N/A"%string <-> a = None \/ b = None.
Proof.
  destruct a as [a|], b as [b|]; simpl.
  - split; [|intros [H|H]; discriminate H].
    destruct (Qltb a p && Qltb b a), (Qltb p a && Qltb a b); discriminate.
  - tauto.
  - tauto.
  - tauto.
Qed.

(** X6.  A snapshot is produced only from at least 5 observations; it
    carries the fund code and the number of observations, and each
    indicator is absent exactly below the data it needs: RSI below 15
    observations, MA20 below 20, MA50 and the trend below 50, the
    volatility below 21; MA5 is always there, and the RSI signal is the
    classification of the RSI. *)
Theorem compute_indicators_availability (code : string) (nav_history : list obs) (s : snapshot) :
  compute_indicators code nav_history = Ok (Some s) ->
  fund_code s = code /\ data_points s = length nav_history /\
  (5 <= length nav_history)%nat /\ ma5 s <> None /\
  (rsi_14 s = None <-> (length nav_history < 15)%nat) /\
  snap_rsi_signal s = rsi_signal (rsi_14 s) /\
  (ma20 s = None <-> (length nav_history < 20)%nat) /\
  (ma50 s = None <-> (length nav_history < 50)%nat) /\
  (trend s = "N/A"%string <-> (length nav_history < 50)%nat) /\
  (volatility_20d s = None <-> (length nav_history < 21)%nat).
Proof.
  intros H. unfold compute_indicators in H.
  destruct (Nat.ltb (length nav_history) 5) eqn:E5; [discriminate H|].
  apply Nat.ltb_ge in E5. cbv zeta in H. rewrite !calculate_rsi_eq in H. cbn [bind] in H.
  peel H. injection H as <-. cbn.
  repeat match goal with
  | E : calculate_ma _ _ = Ok _ |- _ => apply ma_none in E
  | E : calculate_volatility _ _ = Ok _ |- _ => apply volatility_none in E
  end.
  rewrite length_map, length_sort_by in *.
  rewrite rsi_spec_none, length_map, length_sort_by, trend_na.
  repeat match goal with
  | E : (_ <-> _) |- _ => rewrite E; clear E
  end.
  split; [reflexivity|]. split; [reflexivity|]. split; [exact E5|].
  split; [lia|]. split; [tauto|]. split; [reflexivity|].
  split; [tauto|]. split; [tauto|]. split; [split; [intros [?|?]; lia|intros; right; lia]|].
  tauto.
Qed.

(** X6 (witness): the falling series of 15 observations. *)
Lemma compute_indicators_availability_witness :
  compute_indicators "PGF" falling_history = Ok (Some falling_snapshot) /\
  (fund_code falling_snapshot = "PGF"%string /\ data_points falling_snapshot = length falling_history /\
  (5 <= length falling_history)%nat /\ ma5 falling_snapshot <> None /\
  (rsi_14 falling_snapshot = None <-> (length falling_history < 15)%nat) /\
  snap_rsi_signal falling_snapshot = rsi_signal (rsi_14 falling_snapshot) /\
  (ma20 falling_snapshot = None <-> (length falling_history < 20)%nat) /\
  (ma50 falling_snapshot = None <-> (length falling_history < 50)%nat) /\
  (trend falling_snapshot = "N/A"%string <-> (length falling_history < 50)%nat) /\
  (volatility_20d falling_snapshot = None <-> (length falling_history < 21)%nat)).
Proof.
  split; [vm_compute; reflexivity|].
  apply (compute_indicators_availability "PGF" falling_history falling_snapshot).
  vm_compute. reflexivity.
Defined.

Lemma last_map_nav (l : list obs) :
  last (map nav l) 0 = nav (last l {| date := ""; nav := 0 |}).
Proof. induction l as [|a [|b l] IH]; [reflexivity|reflexivity|exact IH]. Qed.

Lemma last_In' {A} (l : list A) d : l <> [] -> In (last l d) l.
Proof.
  induction l as [|a [|b l] IH]; intros H; [congruence|left; reflexivity|].
  right. apply IH. discriminate.
Qed.

Lemma ss_last {A} (R : A -> A -> Prop) (Rrefl : forall a, R a a) l d :
  StronglySorted R l -> forall x, In x l -> R x (last l d).
Proof.
  induction 1 as [|a l Hs IH Hf]; intros x Hx; [destruct Hx|].
  destruct l as [|b l].
  - destruct Hx as [<-|[]]. apply Rrefl.
  - change (last (a :: b :: l) d) with (last (b :: l) d).
    destruct Hx as [<-|Hx]; [|apply IH; exact Hx].
    rewrite Forall_forall in Hf. apply Hf, last_In'. discriminate.
Qed.

Lemma date_le_total a b : date_le a b = false -> date_le b a = true.
Proof. unfold date_le. apply StrOrder.leb_total_false. Qed.

Lemma sort_date_ss l : StronglySorted (fun a b => date_le a b = true) (sort_by date_le l).
Proof.
  apply Sorted_StronglySorted.
  - intros a b c Hab Hbc. unfold date_le in *. eapply StrOrder.leb_trans; eassumption.
  - apply sort_by_sorted. exact date_le_total.
Qed.

(** X7.  The snapshot's date and NAV are those of an observation of the
    history, and no observation has a later date. *)
Theorem compute_indicators_latest (code : string) (nav_history : list obs) (s : snapshot) :
  compute_indicators code nav_history = Ok (Some s) ->
  In {| date := snap_date s; nav := snap_nav s |} nav_history /\
  Forall (fun o => String.leb (date o) (snap_date s) = true) nav_history.
Proof.
  intros H. unfold compute_indicators in H.
  destruct (Nat.ltb (length nav_history) 5) eqn:E5; [discriminate H|].
  apply Nat.ltb_ge in E5. cbv zeta in H. cbn [bind] in H.
  peel H. injection H as <-. cbn. rewrite last_map_nav.
  set (d0 := {| date := ""; nav := 0 |}).
  set (l := sort_by date_le nav_history).
  assert (Hne : l <> []).
  { intros Hc. assert (Hl : length l = length nav_history) by apply length_sort_by.
    rewrite Hc in Hl. simpl in Hl. lia. }
  split.
  - destruct (last l d0) as [dt nv] eqn:El. simpl.
    apply (Permutation_in _ (sort_by_perm date_le nav_history)). fold l.
    rewrite <- El. apply last_In'. exact Hne.
  - apply Forall_forall. intros o Ho.
    apply (ss_last (fun a b => date_le a b = true)) with (d := d0) (x := o).
    + intros y. unfold date_le. unfold String.leb. rewrite StrOrder.compare_refl. reflexivity.
    + apply sort_date_ss.
    + apply (Permutation_in _ (Permutation_sym (sort_by_perm date_le nav_history))). exact Ho.
Qed.

(** X7 (witness). *)
Lemma compute_indicators_latest_witness :
  compute_indicators "PGF" falling_history = Ok (Some falling_snapshot) /\
  In {| date := snap_date falling_snapshot; nav := snap_nav falling_snapshot |} falling_history /\
  Forall (fun o => String.leb (date o) (snap_date falling_snapshot) = true) falling_history.
Proof.
  split; [vm_compute; reflexivity|].
  apply (compute_indicators_latest "PGF" falling_history falling_snapshot).
  vm_compute. reflexivity.
Defined.

Lemma ss_date_strict l :
  StronglySorted (fun a b => date_le a b = true) l -> NoDup (map date l) ->
  StronglySorted date_lt l.
Proof.
  induction 1 as [|a l _ IH Hf]; intros Hnd; constructor.
  - apply IH. inversion Hnd; assumption.
  - inversion Hnd as [|? ? Hn _]; subst.
    rewrite Forall_forall in Hf |- *. intros b Hb. unfold date_lt.
    apply StrOrder.leb_neq_lt; [apply Hf; exact Hb|].
    intros He. apply Hn. rewrite He. apply in_map. exact Hb.
Qed.

Lemma ss_lt_unique l1 l2 :
  StronglySorted date_lt l1 -> StronglySorted date_lt l2 -> Permutation l1 l2 -> l1 = l2.
Proof.
  revert l2; induction l1 as [|a l1 IH]; intros l2 H1 H2 P.
  - symmetry. apply Permutation_nil. exact P.
  - destruct l2 as [|b l2]; [apply Permutation_sym, Permutation_nil in P; discriminate P|].
    inversion H1 as [|? ? H1' F1]; inversion H2 as [|? ? H2' F2]; subst.
    assert (Hab : a = b).
    { assert (Ha : In a (b :: l2)) by (apply (Permutation_in _ P); left; reflexivity).
      assert (Hb : In b (a :: l1)) by (apply (Permutation_in _ (Permutation_sym P)); left; reflexivity).
      destruct Ha as [->|Ha]; [reflexivity|]. destruct Hb as [->|Hb]; [reflexivity|].
      rewrite Forall_forall in F1, F2. exfalso.
      apply (StrOrder.lt_asym (date a) (date b)); [apply F1; exact Hb|apply F2; exact Ha]. }
    subst b. f_equal. apply IH; [exact H1'|exact H2'|]. apply Permutation_cons_inv in P. exact P.
Qed.

(** X8.  For a history with distinct dates, the order in which the
    observations are stored does not change [compute_indicators]. *)
Theorem compute_indicators_perm (code : string) (h1 h2 : list obs) :
  Permutation h1 h2 -> NoDup (map date h1) ->
  compute_indicators code h1 = compute_indicators code h2.
Proof.
  intros P Hnd.
  assert (Hnd2 : NoDup (map date h2)) by (apply (Permutation_NoDup (Permutation_map date P)); exact Hnd).
  assert (Hs : sort_by date_le h1 = sort_by date_le h2).
  { apply ss_lt_unique.
    - apply ss_date_strict; [apply sort_date_ss|].
      apply (Permutation_NoDup (Permutation_map date (Permutation_sym (sort_by_perm _ _)))). exact Hnd.
    - apply ss_date_strict; [apply sort_date_ss|].
      apply (Permutation_NoDup (Permutation_map date (Permutation_sym (sort_by_perm _ _)))). exact Hnd2.
    - eapply Permutation_trans; [apply sort_by_perm|].
      eapply Permutation_trans; [exact P|]. apply Permutation_sym, sort_by_perm. }
  unfold compute_indicators. rewrite (Permutation_length P), Hs. reflexivity.
Qed.

(** X8 (witness): the falling series stored newest first. *)
Lemma compute_indicators_perm_witness :
  compute_indicators "PGF" falling_history = compute_indicators "PGF" (rev falling_history).
Proof.
  apply (compute_indicators_perm "PGF" falling_history (rev falling_history)).
  - apply Permutation_rev.
  - vm_compute. repeat constructor; simpl; intuition discriminate.
Defined.

(** ** Capital flow proxy *)

Lemma Qltb_iff a b : Qltb a b = true <-> a < b.
Proof.
  unfold Qltb. rewrite negb_true_iff. split; intros H.
  - apply Qnot_le_lt. intros Hc. apply Qle_bool_iff in Hc. congruence.
  - destruct (Qle_bool b a) eqn:E; [apply Qle_bool_iff in E; lra|reflexivity].
Qed.

Lemma Qltb_false a b : Qltb a b = false -> b <= a.
Proof. unfold Qltb. rewrite negb_false_iff. apply Qle_bool_iff. Qed.

Lemma strength_ge3 x : 3 * (1 # 2) <= Qabs x -> (3 <= Z.min (Qfloor (Qabs x / (1 # 2))) 5 <= 5)%Z.
Proof.
  intros H.
  assert (H3 : 3 <= Qabs x / (1 # 2)) by (apply Qle_shift_div_l; [reflexivity|exact H]).
  apply Qfloor_resp_le in H3. change (Qfloor 3) with 3%Z in H3. lia.
Qed.

Lemma fold_set_values {A V} (key : A -> string) (val : A -> V) (xs : list A) d k v :
  PyDict.get (fold_left (fun d x => PyDict.set d (key x) (val x)) xs d) k = Some v ->
  PyDict.get d k = Some v \/ exists x, In x xs /\ v = val x.
Proof.
  revert d; induction xs as [|x xs IH]; intros d H; simpl in H; [left; exact H|].
  destruct (IH _ H) as [H'|[y [Hy ->]]].
  - rewrite DictFacts.get_set in H'. destruct (String.eqb k (key x)).
    + right. exists x. split; [left; reflexivity|]. injection H' as <-. reflexivity.
    + left. exact H'.
  - right. exists y. split; [right; exact Hy|reflexivity].
Qed.

Lemma flow_entry_of_cases diff :
  let e := flow_entry_of diff in
  (signal e = "INFLOW"%string /\ (3 <= strength e <= 5)%Z /\ 3 # 2 <= vs_category e) \/
  (signal e = "OUTFLOW"%string /\ (3 <= strength e <= 5)%Z /\ vs_category e <= - (3 # 2)) \/
  (signal e = "NEUTRAL"%string /\ strength e = 1%Z /\
   - (3 # 2) <= vs_category e /\ vs_category e <= 3 # 2).
Proof.
  intros e. unfold e, flow_entry_of, classify_flow.
  assert (Hp : py_round 2 (3 # 2) == 3 # 2) by (vm_compute; reflexivity).
  assert (Hn : py_round 2 (- (3 # 2)) == - (3 # 2)) by (vm_compute; reflexivity).
  destruct (Qltb (3 # 2) diff) eqn:E1; [|destruct (Qltb diff (- (3 # 2))) eqn:E2]; cbn [fst snd].
  - apply Qltb_iff in E1. left. split; [reflexivity|]. split.
    + apply strength_ge3. pose proof (Qle_Qabs diff). lra.
    + rewrite <- Hp. apply py_round_mono. lra.
  - apply Qltb_iff in E2. right; left. split; [reflexivity|]. split.
    + apply strength_ge3. pose proof (Qle_Qabs (- diff)). rewrite Qabs_opp in H. lra.
    + rewrite <- Hn. apply py_round_mono. lra.
  - apply Qltb_false in E1. apply Qltb_false in E2. right; right.
    split; [reflexivity|]. split; [reflexivity|]. split.
    + rewrite <- Hn. apply py_round_mono. exact E2.
    + rewrite <- Hp. apply py_round_mono. exact E1.
Qed.

(** X9.  Every entry of the flow proxy is consistent: INFLOW with a
    strength from 3 to 5 and a rounded gap to the median of at least
    1.5; OUTFLOW with a strength from 3 to 5 and a gap of at most -1.5;
    otherwise NEUTRAL with strength 1 and a gap between -1.5 and 1.5.
    A strength of 0 or 2 never occurs. *)
Theorem flow_proxy_entry_consistent (l : list snapshot) (k : string) (e : flow_entry) :
  PyDict.get (compute_flow_proxy l) k = Some e ->
  (signal e = "INFLOW"%string /\ (3 <= strength e <= 5)%Z /\ 3 # 2 <= vs_category e) \/
  (signal e = "OUTFLOW"%string /\ (3 <= strength e <= 5)%Z /\ vs_category e <= - (3 # 2)) \/
  (signal e = "NEUTRAL"%string /\ strength e = 1%Z /\
   - (3 # 2) <= vs_category e /\ vs_category e <= 3 # 2).
Proof.
  unfold compute_flow_proxy. destruct (flow_valid l) as [|g gs]; [discriminate|].
  intros H.
  destruct (fold_set_values fund_code
              (fun f => flow_entry_of (pct_1m_value f - flow_median l)) _ _ _ _ H)
    as [H'|[x [_ ->]]]; [discriminate H'|].
  apply flow_entry_of_cases.
Qed.

(** X9 (witness): fund B of the two-fund scenario, 5 points below the
    median. *)
Lemma flow_proxy_entry_consistent_witness :
  PyDict.get (compute_flow_proxy [fund_A; fund_B]) "B" = Some (flow_entry_of (-5)) /\
  ((signal (flow_entry_of (-5)) = "INFLOW"%string /\ (3 <= strength (flow_entry_of (-5)) <= 5)%Z /\
    3 # 2 <= vs_category (flow_entry_of (-5))) \/
   (signal (flow_entry_of (-5)) = "OUTFLOW"%string /\ (3 <= strength (flow_entry_of (-5)) <= 5)%Z /\
    vs_category (flow_entry_of (-5)) <= - (3 # 2)) \/
   (signal (flow_entry_of (-5)) = "NEUTRAL"%string /\ strength (flow_entry_of (-5)) = 1%Z /\
    - (3 # 2) <= vs_category (flow_entry_of (-5)) /\ vs_category (flow_entry_of (-5)) <= 3 # 2)).
Proof.
  split; [vm_compute; reflexivity|].
  apply (flow_proxy_entry_consistent [fund_A; fund_B] "B"). vm_compute. reflexivity.
Defined.

(** ** The dashboard lists *)

Lemma ss_app_inv {A} (R : A -> A -> Prop) l1 l2 :
  StronglySorted R (l1 ++ l2) ->
  StronglySorted R l1 /\ (forall x y, In x l1 -> In y l2 -> R x y).
Proof.
  induction l1 as [|a l1 IH]; simpl; intros H.
  - split; [constructor|intros x y []].
  - inversion H as [|? ? H' Hf]; subst. destruct (IH H') as [IH1 IH2].
    apply Forall_app in Hf as [Hf1 Hf2]. split.
    + constructor; assumption.
    + intros x y [<-|Hx] Hy; [|apply IH2; assumption].
      rewrite Forall_forall in Hf2. apply Hf2. exact Hy.
Qed.

Section TopK.
Context {A : Type} (le : A -> A -> bool).
Hypothesis le_total : forall a b, le a b = false -> le b a = true.
Hypothesis le_trans : forall a b c, le a b = true -> le b c = true -> le a c = true.

Lemma top_k k xs :
  let T := firstn k (sort_by le xs) in
  (length T <= k)%nat /\ (forall x, In x T -> In x xs) /\
  StronglySorted (fun a b => le a b = true) T /\
  (forall x y, In x T -> In y xs -> ~ In y T -> le x y = true).
Proof.
  intros T.
  assert (HS : StronglySorted (fun a b => le a b = true) (sort_by le xs)).
  { apply Sorted_StronglySorted; [intros a b c; apply le_trans|].
    apply sort_by_sorted. exact le_total. }
  rewrite <- (firstn_skipn k (sort_by le xs)) in HS.
  destruct (ss_app_inv _ _ _ HS) as [H1 H2].
  assert (Hin : forall x, In x xs -> In x T \/ In x (skipn k (sort_by le xs))).
  { intros x Hx.
    assert (Hx' : In x (firstn k (sort_by le xs) ++ skipn k (sort_by le xs))).
    { rewrite firstn_skipn. apply (Permutation_in _ (Permutation_sym (sort_by_perm le xs))). exact Hx. }
    apply in_app_or in Hx'. exact Hx'. }
  split; [apply firstn_le_length|]. split; [|split; [exact H1|]].
  - intros x Hx. apply (Permutation_in _ (sort_by_perm le xs)).
    rewrite <- (firstn_skipn k (sort_by le xs)). apply in_or_app. left. exact Hx.
  - intros x y Hx Hy Hn. destruct (Hin y Hy) as [Hy'|Hy']; [contradiction|].
    apply H2; assumption.
Qed.
End TopK.

(** X10.  [top_gainers_1d] holds at most five of the funds with a
    non-zero 1-day change, by decreasing change, and none left out has
    a larger change than one listed; [top_losers_1d] likewise by
    increasing change. *)
Theorem dashboard_top_movers (l : list snapshot) (all_holdings : PyDict.t (list string)) :
  let D := build_dashboard l all_holdings in
  let movers := filter pct_1d_truthy (funds D) in
  (length (top_gainers_1d D) <= 5)%nat /\
  (forall f, In f (top_gainers_1d D) -> In f movers) /\
  Sorted (fun a b => pct_1d_value b <= pct_1d_value a) (top_gainers_1d D) /\
  (forall f g, In f (top_gainers_1d D) -> In g movers -> ~ In g (top_gainers_1d D) ->
     pct_1d_value g <= pct_1d_value f) /\
  (length (top_losers_1d D) <= 5)%nat /\
  (forall f, In f (top_losers_1d D) -> In f movers) /\
  Sorted (fun a b => pct_1d_value a <= pct_1d_value b) (top_losers_1d D) /\
  (forall f g, In f (top_losers_1d D) -> In g movers -> ~ In g (top_losers_1d D) ->
     pct_1d_value f <= pct_1d_value g).
Proof.
  intros D movers.
  assert (HG : top_gainers_1d D
               = firstn 5 (sort_by (fun a b => Qle_bool (pct_1d_value b) (pct_1d_value a)) movers))
    by reflexivity.
  assert (HL : top_losers_1d D
               = firstn 5 (sort_by (fun a b => Qle_bool (pct_1d_value a) (pct_1d_value b)) movers))
    by reflexivity.
  destruct (top_k (fun a b => Qle_bool (pct_1d_value b) (pct_1d_value a))
              (fun a b => Qle_bool_total _ _)
              (fun a b c Hab Hbc => Qle_bool_trans _ _ _ Hbc Hab) 5 movers)
    as [G1 [G2 [G3 G4]]].
  destruct (top_k (fun a b => Qle_bool (pct_1d_value a) (pct_1d_value b))
              (fun a b => Qle_bool_total _ _)
              (fun a b c Hab Hbc => Qle_bool_trans _ _ _ Hab Hbc) 5 movers)
    as [L1 [L2 [L3 L4]]].
  rewrite HG, HL.
  split; [exact G1|]. split; [exact G2|]. split.
  { apply StronglySorted_Sorted in G3. revert G3. apply Sorted_weaken.
    intros a b H. apply Qle_bool_iff. exact H. }
  split; [intros f g Hf Hg Hn; apply Qle_bool_iff; apply G4; assumption|].
  split; [exact L1|]. split; [exact L2|]. split.
  { apply StronglySorted_Sorted in L3. revert L3. apply Sorted_weaken.
    intros a b H. apply Qle_bool_iff. exact H. }
  intros f g Hf Hg Hn. apply Qle_bool_iff. apply L4; assumption.
Qed.

(** X10 (instance). *)
Lemma dashboard_top_movers_witness :
  let D := build_dashboard [fund_A; fund_B; fund_C] [] in
  let movers := filter pct_1d_truthy (funds D) in
  (length (top_gainers_1d D) <= 5)%nat /\
  (forall f, In f (top_gainers_1d D) -> In f movers) /\
  Sorted (fun a b => pct_1d_value b <= pct_1d_value a) (top_gainers_1d D) /\
  (forall f g, In f (top_gainers_1d D) -> In g movers -> ~ In g (top_gainers_1d D) ->
     pct_1d_value g <= pct_1d_value f) /\
  (length (top_losers_1d D) <= 5)%nat /\
  (forall f, In f (top_losers_1d D) -> In f movers) /\
  Sorted (fun a b => pct_1d_value a <= pct_1d_value b) (top_losers_1d D) /\
  (forall f g, In f (top_losers_1d D) -> In g movers -> ~ In g (top_losers_1d D) ->
     pct_1d_value f <= pct_1d_value g).
Proof. exact (dashboard_top_movers [fund_A; fund_B; fund_C] []). Defined.

Lemma rank_funds_ranks l :
  NoDup (map fund_code l) -> map (fun e => rank (snd e)) (rank_funds l) = seq 1 (length l).
Proof.
  intros Hnd. rewrite rank_funds_map by exact Hnd. rewrite map_map. simpl.
  rewrite <- (map_map fst S), enumerate_fst, seq_shift.
  rewrite length_sort_by. unfold scoreable. rewrite length_map. reflexivity.
Qed.

Lemma rank_funds_keys l :
  NoDup (map fund_code l) -> Permutation (PyDict.keys (rank_funds l)) (map fund_code l).
Proof.
  intros Hnd. rewrite rank_funds_map by exact Hnd. unfold PyDict.keys. rewrite map_map. simpl.
  rewrite <- (map_map snd fst), enumerate_snd.
  replace (map fund_code l) with (map fst (scoreable l))
    by (unfold scoreable; rewrite map_map; reflexivity).
  apply Permutation_map, sort_by_perm.
Qed.

Lemma get_all {V} (d : PyDict.t V) ks :
  NoDup (PyDict.keys d) -> Permutation ks (PyDict.keys d) ->
  Permutation (map (PyDict.get d) ks) (map (fun e => Some (snd e)) d).
Proof.
  intros Hnd P. eapply Permutation_trans; [apply Permutation_map; exact P|].
  unfold PyDict.keys. rewrite map_map. apply Permutation_refl'.
  apply map_ext_in. intros [k v] Hin. apply DictFacts.In_get; assumption.
Qed.

Lemma ss_seq s n : StronglySorted le (seq s n).
Proof.
  revert s; induction n as [|n IH]; intros s; simpl; constructor; [apply IH|].
  apply Forall_forall. intros x Hx. apply in_seq in Hx. lia.
Qed.

Lemma ss_le_unique (l1 l2 : list nat) :
  StronglySorted le l1 -> StronglySorted le l2 -> Permutation l1 l2 -> l1 = l2.
Proof.
  revert l2; induction l1 as [|a l1 IH]; intros l2 H1 H2 P.
  - symmetry. apply Permutation_nil. exact P.
  - destruct l2 as [|b l2]; [apply Permutation_sym, Permutation_nil in P; discriminate P|].
    inversion H1 as [|? ? H1' F1]; inversion H2 as [|? ? H2' F2]; subst.
    assert (Hab : a = b).
    { assert (Ha : In a (b :: l2)) by (apply (Permutation_in _ P); left; reflexivity).
      assert (Hb : In b (a :: l1)) by (apply (Permutation_in _ (Permutation_sym P)); left; reflexivity).
      rewrite Forall_forall in F1, F2.
      destruct Ha as [->|Ha]; [reflexivity|]. destruct Hb as [->|Hb]; [reflexivity|].
      pose proof (F1 b Hb). pose proof (F2 a Ha). lia. }
    subst b. f_equal. apply IH; [exact H1'|exact H2'|]. apply Permutation_cons_inv in P. exact P.
Qed.

(** X11.  For funds with distinct codes, the dashboard lists every fund
    once, in momentum-rank order: the ranks read 1, 2, ..., N. *)
Theorem dashboard_rank_order (l : list snapshot) (all_holdings : PyDict.t (list string)) :
  NoDup (map fund_code l) ->
  total_funds (build_dashboard l all_holdings) = length l /\
  map momentum_rank (funds (build_dashboard l all_holdings)) = map Some (seq 1 (length l)).
Proof.
  intros Hnd.
  set (recs := map (dashboard_record (compute_flow_proxy l) (rank_funds l) all_holdings) l).
  set (F := sort_by (fun a b => Nat.leb (rank_key a) (rank_key b)) recs).
  assert (HF : funds (build_dashboard l all_holdings) = F) by reflexivity.
  assert (HT : total_funds (build_dashboard l all_holdings) = length F) by reflexivity.
  rewrite HF, HT. split; [unfold F, recs; rewrite length_sort_by, length_map; reflexivity|].
  assert (Hrecs : Permutation (map momentum_rank recs) (map Some (seq 1 (length l)))).
  { replace (map momentum_rank recs)
      with (map (opt_map rank) (map (PyDict.get (rank_funds l)) (map fund_code l)))
      by (unfold recs; rewrite !map_map; reflexivity).
    apply (Permutation_trans (l' := map (opt_map rank) (map (fun e => Some (snd e)) (rank_funds l)))).
    - apply Permutation_map, get_all.
      + apply (Permutation_NoDup (Permutation_sym (rank_funds_keys l Hnd))). exact Hnd.
      + apply Permutation_sym, rank_funds_keys. exact Hnd.
    - rewrite <- (rank_funds_ranks l Hnd), !map_map. apply Permutation_refl. }
  assert (PF : Permutation (map momentum_rank F) (map Some (seq 1 (length l)))).
  { eapply Permutation_trans; [|exact Hrecs]. apply Permutation_map, sort_by_perm. }
  assert (Hsome : forall r, In r F -> momentum_rank r = Some (rank_key r)).
  { intros r Hr.
    assert (Hin : In (momentum_rank r) (map Some (seq 1 (length l))))
      by (apply (Permutation_in _ PF); apply in_map; exact Hr).
    apply in_map_iff in Hin as [k [Hk Hks]]. apply in_seq in Hks.
    unfold rank_key. rewrite <- Hk. destruct k as [|k]; [lia|reflexivity]. }
  assert (HmF : map momentum_rank F = map Some (map rank_key F)).
  { rewrite map_map. apply map_ext_in. exact Hsome. }
  rewrite HmF. f_equal.
  apply ss_le_unique; [| apply ss_seq |].
  - apply Sorted_StronglySorted; [intros a b c; apply Nat.le_trans|].
    apply (Sorted_weaken (fun x y => Nat.leb x y = true)); [intros a b; apply Nat.leb_le|].
    apply Sorted_map. apply sort_by_sorted.
    intros a b H. apply Nat.leb_gt in H. apply Nat.leb_le. lia.
  - set (unSome := fun o : option nat => match o with Some k => k | None => 0%nat end).
    replace (map rank_key F) with (map unSome (map Some (map rank_key F)))
      by (rewrite map_map; apply map_id).
    replace (seq 1 (length l)) with (map unSome (map Some (seq 1 (length l))))
      by (rewrite map_map; apply map_id).
    apply Permutation_map. rewrite <- HmF. exact PF.
Qed.

(** X11 (witness): the three-fund example. *)
Lemma dashboard_rank_order_witness :
  total_funds (build_dashboard [fund_A; fund_B; fund_C] []) = 3%nat /\
  map momentum_rank (funds (build_dashboard [fund_A; fund_B; fund_C] [])) = map Some (seq 1 3).
Proof.
  apply (dashboard_rank_order [fund_A; fund_B; fund_C] []).
  vm_compute. repeat constructor; simpl; intuition discriminate.
Defined.

(** ** The holdings fetcher *)

Lemma mapM_length {A B} (f : A -> res B) l ys : mapM f l = Ok ys -> length ys = length l.
Proof.
  revert ys; induction l as [|x l IH]; simpl; intros ys H; [injection H as <-; reflexivity|].
  destruct (f x); cbn [bind] in H; [|discriminate H].
  destruct (mapM f l) as [zs|]; cbn [bind] in H; [|discriminate H].
  injection H as <-. simpl. f_equal. apply IH. reflexivity.
Qed.

Lemma mapM_err {A B} (f : A -> res B) l e : mapM f l = Err e -> exists x, In x l /\ f x = Err e.
Proof.
  induction l as [|x l IH]; simpl; intros H; [discriminate H|].
  destruct (f x) eqn:Ef; cbn [bind] in H.
  - destruct (mapM f l) eqn:Em; cbn [bind] in H; [discriminate H|].
    injection H as ->. destruct (IH eq_refl) as [y [Hy Hfy]]. exists y. split; [right|]; assumption.
  - injection H as ->. exists x. split; [left; reflexivity|exact Ef].
Qed.

Lemma mapM_some_err {A B} (f : A -> res B) l x e :
  In x l -> f x = Err e -> exists e', mapM f l = Err e'.
Proof.
  induction l as [|y l IH]; simpl; intros Hx Hf; [destruct Hx|].
  destruct Hx as [->|Hx].
  - rewrite Hf. cbn [bind]. eexists; reflexivity.
  - destruct (f y); cbn [bind]; [|eexists; reflexivity].
    destruct (IH Hx Hf) as [e' He']. rewrite He'. cbn [bind]. eexists; reflexivity.
Qed.

Lemma mapM_ok {A B} (f : A -> res B) (g : A -> B) l :
  (forall x, In x l -> f x = Ok (g x)) -> mapM f l = Ok (map g l).
Proof.
  induction l as [|x l IH]; simpl; intros H; [reflexivity|].
  rewrite (H x (or_introl eq_refl)). cbn [bind].
  rewrite IH by (intros y Hy; apply H; right; exact Hy). reflexivity.
Qed.

Lemma holding_of_row_err r e : holding_of_row r = Err e -> e = ValueError.
Proof.
  unfold holding_of_row. destruct (row_weighting r) as [[q|]|]; cbn [bind]; intros H;
    (discriminate H || (injection H as <-; reflexivity)).
Qed.

Lemma fetch_holdings_table (rows : list holding_row) :
  fetch_holdings_from_morningstar (Ok (Some rows))
    = match mapM holding_of_row (firstn 10 rows) with
      | Ok result => Ok result
      | Err e => if is_Exception e then Ok [] else Err e
      end.
Proof. destruct rows; reflexivity. Qed.

(** X12.  The holdings fetcher returns at most ten holdings, and the only
    errors it lets through are not [Exception]s. *)
Theorem fetch_holdings_bounds (holdings_response : res (option (list holding_row))) :
  (forall hs, fetch_holdings_from_morningstar holdings_response = Ok hs -> (length hs <= 10)%nat) /\
  (forall e, fetch_holdings_from_morningstar holdings_response = Err e -> is_Exception e = false).
Proof.
  unfold fetch_holdings_from_morningstar. cbv zeta.
  assert (Hgen : forall body : res (list holding),
            (forall hs, body = Ok hs -> (length hs <= 10)%nat) ->
            (forall hs, match body with Ok r => Ok r
                        | Err e => if is_Exception e then Ok [] else Err e end = Ok hs ->
                        (length hs <= 10)%nat) /\
            (forall e, match body with Ok r => Ok r
                       | Err e => if is_Exception e then Ok [] else Err e end = Err e ->
                       is_Exception e = false)).
  { intros body Hb. destruct body as [r|e].
    - split; [intros hs H; apply Hb; exact H|intros e H; discriminate H].
    - destruct (is_Exception e) eqn:Ee.
      + split; [intros hs H; injection H as <-; simpl; lia|intros e' H; discriminate H].
      + split; [intros hs H; discriminate H|intros e' H; injection H as <-; exact Ee]. }
  apply Hgen. intros hs Hb.
  destruct holdings_response as [[[|r rows]|]|e]; cbn [bind] in Hb;
    try (injection Hb as <-; simpl; lia); try discriminate Hb.
  apply mapM_length in Hb. rewrite Hb. apply firstn_le_length.
Qed.

(** X12 (instance): an empty table. *)
Lemma fetch_holdings_bounds_witness :
  (forall hs, fetch_holdings_from_morningstar (Ok (Some [])) = Ok hs -> (length hs <= 10)%nat) /\
  (forall e, fetch_holdings_from_morningstar (Ok (Some [])) = Err e -> is_Exception e = false).
Proof. exact (fetch_holdings_bounds (Ok (Some []))). Defined.

Definition name_cell (r : holding_row) : string :=
  match row_security_name r with Some s => s | None => "" end.

(** X13.  Only the first ten rows of the holdings table count.  One row
    among them whose weighting [float()] rejects makes the fetcher
    return no holdings at all; otherwise it returns one holding per row,
    in table order. *)
Theorem fetch_holdings_rows (rows : list holding_row) :
  fetch_holdings_from_morningstar (Ok (Some rows))
    = fetch_holdings_from_morningstar (Ok (Some (firstn 10 rows))) /\
  ((exists r, In r (firstn 10 rows) /\ row_weighting r = Some WBad) ->
   fetch_holdings_from_morningstar (Ok (Some rows)) = Ok []) /\
  ((forall r, In r (firstn 10 rows) -> row_weighting r <> Some WBad) ->
   exists hs, fetch_holdings_from_morningstar (Ok (Some rows)) = Ok hs /\
              length hs = Nat.min 10 (length rows) /\
              map h_name hs = map name_cell (firstn 10 rows)).
Proof.
  rewrite !fetch_holdings_table. split; [|split].
  - rewrite firstn_firstn, Nat.min_id. reflexivity.
  - intros [r [Hr Hbad]].
    assert (Hre : holding_of_row r = Err ValueError)
      by (unfold holding_of_row; rewrite Hbad; reflexivity).
    destruct (mapM_some_err holding_of_row _ r ValueError Hr Hre) as [e' He'].
    pose proof (mapM_err _ _ _ He') as [x [_ Hx]]. apply holding_of_row_err in Hx. subst e'.
    rewrite He'. reflexivity.
  - intros Hok.
    set (g := fun r => {| h_name := name_cell r;
                          h_ticker := match row_ticker r with Some s => s | None => "" end;
                          weight_pct := py_round 2 (match row_weighting r with
                                                    | Some (WNum q) => q | _ => 0 end) |}).
    assert (Hm : mapM holding_of_row (firstn 10 rows) = Ok (map g (firstn 10 rows))).
    { apply mapM_ok. intros r Hr. specialize (Hok r Hr). unfold holding_of_row, g.
      destruct (row_weighting r) as [[q|]|]; [reflexivity|congruence|reflexivity]. }
    exists (map g (firstn 10 rows)). rewrite Hm. split; [reflexivity|split].
    + rewrite length_map, length_firstn. reflexivity.
    + rewrite map_map. reflexivity.
Qed.

(** ** The monthly holdings refresh *)

Definition holdings_loop_step (today : string)
  (holdings_response : fund -> res (option (list holding_row)))
  (h : PyDict.t hval) (f : fund) : res (PyDict.t hval) :=
  holdings <- fetch_holdings_from_morningstar (holdings_response f) ;;
  Ok (match holdings with
      | [] => h
      | _ :: _ => PyDict.set h (code f) (HEntry today holdings)
      end).

Lemma refresh_holdings_unfold current_month today resp funds H :
  refresh_holdings current_month today resp funds H =
  if String.eqb (holdings_last_fetch H) current_month then Ok H
  else foldM (holdings_loop_step today resp) (firstn 10 funds)
             (PyDict.set H "_meta" (HMeta (Some current_month))).
Proof. reflexivity. Qed.

Lemma In_firstn_In {A} n (l : list A) x : In x (firstn n l) -> In x l.
Proof.
  intros H. rewrite <- (firstn_skipn n l). apply in_or_app. left. exact H.
Qed.

Lemma holdings_loop_frame today resp fs h0 h' :
  foldM (holdings_loop_step today resp) fs h0 = Ok h' ->
  forall k, ~ In k (map code fs) -> PyDict.get h' k = PyDict.get h0 k.
Proof.
  revert h0; induction fs as [|f fs IH]; simpl; intros h0 Hf k Hk.
  - injection Hf as <-. reflexivity.
  - unfold holdings_loop_step at 1 in Hf.
    destruct (fetch_holdings_from_morningstar (resp f)) as [hs|e]; cbn [bind] in Hf;
      [|discriminate Hf].
    rewrite (IH _ Hf k (fun H => Hk (or_intror H))).
    destruct hs as [|x hs]; [reflexivity|].
    rewrite DictFacts.get_set.
    destruct (String.eqb_spec k (code f)) as [->|]; [exfalso; apply Hk; left; reflexivity|reflexivity].
Qed.

Lemma holdings_loop_update today resp fs h0 h' :
  foldM (holdings_loop_step today resp) fs h0 = Ok h' ->
  NoDup (map code fs) ->
  forall f hs, In f fs -> fetch_holdings_from_morningstar (resp f) = Ok hs ->
  PyDict.get h' (code f) =
    match hs with [] => PyDict.get h0 (code f) | _ :: _ => Some (HEntry today hs) end.
Proof.
  revert h0; induction fs as [|g fs IH]; simpl; intros h0 Hf Hnd f hs Hin Hhs; [destruct Hin|].
  inversion Hnd as [|? ? Hg Hnd']; subst.
  unfold holdings_loop_step at 1 in Hf.
  destruct (fetch_holdings_from_morningstar (resp g)) as [gs|e] eqn:Eg; cbn [bind] in Hf;
    [|discriminate Hf].
  destruct Hin as [->|Hin].
  - rewrite (holdings_loop_frame _ _ _ _ _ Hf _ Hg).
    rewrite Hhs in Eg. injection Eg as <-.
    destruct hs as [|x hs]; [reflexivity|].
    rewrite DictFacts.get_set, String.eqb_refl. reflexivity.
  - rewrite (IH _ Hf Hnd' f hs Hin Hhs).
    destruct hs as [|x hs]; [|reflexivity].
    destruct gs as [|y gs]; [reflexivity|].
    rewrite DictFacts.get_set.
    destruct (String.eqb_spec (code f) (code g)) as [He|]; [|reflexivity].
    exfalso. apply Hg. rewrite <- He. apply in_map. exact Hin.
Qed.

Lemma holdings_last_fetch_set H m :
  holdings_last_fetch (PyDict.set H "_meta" (HMeta (Some m))) = m.
Proof.
  unfold holdings_last_fetch. rewrite DictFacts.get_set, String.eqb_refl. reflexivity.
Qed.

(** X14.  Step 2 fetches holdings at most once per month: once a refresh
    has succeeded for [current_month], a second refresh in the same month
    (any day, whatever mstarpy would answer) leaves the holdings as they
    are, provided no fund code is ["_meta"]. *)
Theorem refresh_holdings_monthly current_month today today' resp resp'
  (funds : list fund) (H H' : PyDict.t hval) :
  ~ In "_meta"%string (map code funds) ->
  refresh_holdings current_month today resp funds H = Ok H' ->
  refresh_holdings current_month today' resp' funds H' = Ok H'.
Proof.
  intros Hmeta Hr. rewrite refresh_holdings_unfold in Hr |- *.
  destruct (String.eqb_spec (holdings_last_fetch H) current_month) as [Heq|Hne].
  - injection Hr as <-. rewrite Heq, String.eqb_refl. reflexivity.
  - assert (Hk : ~ In "_meta"%string (map code (firstn 10 funds))).
    { intros Hin. apply in_map_iff in Hin as [f [Hf Hin]].
      apply Hmeta. rewrite <- Hf. apply in_map. exact (In_firstn_In _ _ _ Hin). }
    assert (Hl : holdings_last_fetch H' = current_month).
    { unfold holdings_last_fetch.
      rewrite (holdings_loop_frame _ _ _ _ _ Hr _ Hk).
      fold (holdings_last_fetch (PyDict.set H "_meta" (HMeta (Some current_month)))).
      apply holdings_last_fetch_set. }
    rewrite Hl, String.eqb_refl. reflexivity.
Qed.

(** X15.  A refresh changes only ["_meta"] and the entries of the first
    ten funds.  When the month is new and those funds have distinct codes,
    a fund whose fetch gives holdings gets [{"last_updated": today,
    "stocks": holdings}], and a fund whose fetch gives none keeps its old
    entry. *)
Theorem refresh_holdings_entries current_month today resp (funds : list fund)
  (H H' : PyDict.t hval) :
  refresh_holdings current_month today resp funds H = Ok H' ->
  (forall k, k <> "_meta"%string -> ~ In k (map code (firstn 10 funds)) ->
   PyDict.get H' k = PyDict.get H k) /\
  (holdings_last_fetch H <> current_month -> NoDup (map code (firstn 10 funds)) ->
   forall f hs, In f (firstn 10 funds) -> code f <> "_meta"%string ->
   fetch_holdings_from_morningstar (resp f) = Ok hs ->
   PyDict.get H' (code f) =
     match hs with [] => PyDict.get H (code f) | _ :: _ => Some (HEntry today hs) end).
Proof.
  intros Hr. rewrite refresh_holdings_unfold in Hr.
  destruct (String.eqb_spec (holdings_last_fetch H) current_month) as [Heq|Hne].
  - injection Hr as <-. split; [reflexivity|]. intros Hne. exfalso. exact (Hne Heq).
  - split.
    + intros k Hk Hin. rewrite (holdings_loop_frame _ _ _ _ _ Hr _ Hin).
      rewrite DictFacts.get_set.
      destruct (String.eqb_spec k "_meta") as [->|]; [exfalso; apply Hk; reflexivity|reflexivity].
    + intros _ Hnd f hs Hin Hc Hhs.
      rewrite (holdings_loop_update _ _ _ _ _ Hr Hnd f hs Hin Hhs).
      destruct hs as [|x hs]; [|reflexivity].
      rewrite DictFacts.get_set.
      destruct (String.eqb_spec (code f) "_meta") as [He|]; [exfalso; exact (Hc He)|reflexivity].
Qed.

(** ** The Step 1 loop *)

Lemma compute_indicators_code c h s :
  compute_indicators c h = Ok (Some s) -> fund_code s = c.
Proof.
  intros H. unfold compute_indicators in H.
  destruct (Nat.ltb (length h) 5); [discriminate H|].
  cbv zeta in H. peel H. injection H as <-. reflexivity.
Qed.

Lemma pipeline_step_effect f r st st' :
  pipeline_step f r st = Ok st' ->
  (forall k, k <> code f -> PyDict.get (all_nav_history st') k = PyDict.get (all_nav_history st) k) /\
  (all_indicators st' = all_indicators st \/
   exists s, all_indicators st' = all_indicators st ++ [s] /\
             fund_code s = code f /\ fund_name s = Some (name f)).
Proof.
  unfold pipeline_step. intros H.
  destruct (fetch_nav_from_morningstar r) as [nav_data|e]; cbn [bind] in H; [|discriminate H].
  cbv zeta in H.
  destruct (compute_indicators _ _) as [ind|e] eqn:Ei; cbn [bind] in H; [|discriminate H].
  injection H as <-. cbn [all_nav_history all_indicators]. split.
  - intros k Hk. destruct nav_data as [|x nav_data]; [reflexivity|].
    rewrite DictFacts.get_set. destruct (String.eqb_spec k (code f)); [contradiction|reflexivity].
  - destruct ind as [s|]; [right|left; reflexivity].
    exists (set_fund_name s (name f)). split; [reflexivity|].
    apply compute_indicators_code in Ei. split; [exact Ei|reflexivity].
Qed.

(** X16.  The Step 1 loop only appends to the indicator list: each
    appended snapshot carries the code and the name of one of the funds
    processed, no two of them share a code when the funds' codes are
    distinct, and the NAV history of a code outside the funds is left
    untouched. *)
Theorem step1_indicators nav_response (funds : list fund) (st st' : pipeline_state) :
  step1 nav_response funds st = Ok st' ->
  exists new, all_indicators st' = all_indicators st ++ new /\
    (forall s, In s new -> exists f, In f funds /\ fund_code s = code f /\ fund_name s = Some (name f)) /\
    (NoDup (map code funds) -> NoDup (map fund_code new)) /\
    (forall k, ~ In k (map code funds) ->
     PyDict.get (all_nav_history st') k = PyDict.get (all_nav_history st) k).
Proof.
  unfold step1. revert st. induction funds as [|f funds IH]; simpl; intros st H.
  - injection H as <-. exists []. rewrite app_nil_r.
    split; [reflexivity|]. split; [intros s []|]. split; [intros _; constructor|reflexivity].
  - destruct (pipeline_step f (nav_response f) st) as [st1|e] eqn:E1; cbn [bind] in H;
      [|discriminate H].
    destruct (pipeline_step_effect _ _ _ _ E1) as [Hfr Hind].
    destruct (IH st1 H) as [new [Hn [Hfs [Hnd Hk]]]].
    assert (Hsub : forall s, In s new -> In (fund_code s) (map code funds)).
    { intros s Hs. destruct (Hfs s Hs) as [g [Hg [Hc _]]]. rewrite Hc. apply in_map. exact Hg. }
    destruct Hind as [Heq|[s [Heq [Hc Hnm]]]].
    + exists new. rewrite Hn, Heq. split; [reflexivity|]. split.
      { intros s Hs. destruct (Hfs s Hs) as [g [Hg Hc]]. exists g. split; [right; exact Hg|exact Hc]. }
      split; [intros Hnd'; inversion Hnd'; subst; auto|].
      intros k Hkn. rewrite (Hk k (fun Hi => Hkn (or_intror Hi))).
      apply Hfr. intros ->. apply Hkn. left. reflexivity.
    + exists (s :: new). rewrite Hn, Heq, <- app_assoc. split; [reflexivity|]. split.
      { intros s' [<-|Hs]; [exists f; split; [left; reflexivity|split; assumption]|].
        destruct (Hfs s' Hs) as [g [Hg Hc']]. exists g. split; [right; exact Hg|exact Hc']. }
      split.
      { intros Hnd'. inversion Hnd' as [|? ? Hf Hnd'']; subst. simpl. constructor; [|auto].
        rewrite Hc. intros Hi. apply in_map_iff in Hi as [s' [Hs' Hi]].
        apply Hf. rewrite <- Hs'. apply Hsub. exact Hi. }
      intros k Hkn. rewrite (Hk k (fun Hi => Hkn (or_intror Hi))).
      apply Hfr. intros ->. apply Hkn. left. reflexivity.
Qed.

(** X13 (instance): a rejected weighting in the second row empties the result. *)
Lemma fetch_holdings_rows_witness :
  fetch_holdings_from_morningstar (Ok (Some [tnb_row; bad_row])) = Ok [].
Proof.
  apply (proj1 (proj2 (fetch_holdings_rows [tnb_row; bad_row]))).
  exists bad_row. split; [right; left; reflexivity|reflexivity].
Defined.

(** X14 (instance): a February refresh over [FUNDS], then a second one later
    in February whose fetches would all fail. *)
Lemma refresh_holdings_monthly_witness :
  refresh_holdings "2024-02" "2024-02-01" tnb_holdings_response FUNDS [] = Ok refreshed_holdings /\
  refresh_holdings "2024-02" "2024-02-20" (fun _ => Ok (Some [bad_row])) FUNDS refreshed_holdings
    = Ok refreshed_holdings.
Proof.
  assert (Hr : refresh_holdings "2024-02" "2024-02-01" tnb_holdings_response FUNDS []
               = Ok refreshed_holdings) by (vm_compute; reflexivity).
  split; [exact Hr|].
  apply (refresh_holdings_monthly "2024-02" "2024-02-01" "2024-02-20" tnb_holdings_response
           (fun _ => Ok (Some [bad_row])) FUNDS [] refreshed_holdings); [|exact Hr].
  vm_compute. intuition discriminate.
Defined.

(** X15 (instance): after the February refresh, fund PGF holds its fetched stocks. *)
Lemma refresh_holdings_entries_witness :
  PyDict.get refreshed_holdings "PGF" = Some (HEntry "2024-02-01" [tnb_holding]).
Proof.
  assert (Hr : refresh_holdings "2024-02" "2024-02-01" tnb_holdings_response FUNDS []
               = Ok refreshed_holdings) by (vm_compute; reflexivity).
  destruct (refresh_holdings_entries "2024-02" "2024-02-01" tnb_holdings_response FUNDS []
              refreshed_holdings Hr) as [_ Hu].
  assert (H1 : holdings_last_fetch [] <> "2024-02"%string) by (vm_compute; discriminate).
  assert (H2 : NoDup (map code (firstn 10 FUNDS)))
    by (vm_compute; repeat (apply NoDup_cons; [simpl; intuition discriminate|]); apply NoDup_nil).
  assert (H3 : In PGF (firstn 10 FUNDS)) by (vm_compute; left; reflexivity).
  assert (H4 : code PGF <> "_meta"%string) by (vm_compute; discriminate).
  assert (H5 : fetch_holdings_from_morningstar (tnb_holdings_response PGF) = Ok [tnb_holding])
    by (vm_compute; reflexivity).
  change "PGF"%string with (code PGF). rewrite (Hu H1 H2 PGF [tnb_holding] H3 H4 H5).
  reflexivity.
Defined.

(** X16 (instance): Step 1 over all of [FUNDS] gives indicators with distinct codes. *)
Lemma step1_indicators_witness :
  step1 falling_nav_response FUNDS empty_state = Ok step1_state /\
  length (all_indicators step1_state) = 30%nat /\
  NoDup (map fund_code (all_indicators step1_state)).
Proof.
  assert (Hs : step1 falling_nav_response FUNDS empty_state = Ok step1_state)
    by (vm_compute; reflexivity).
  destruct (step1_indicators falling_nav_response FUNDS empty_state step1_state Hs)
    as [new [Hn [_ [Hnd _]]]].
  split; [exact Hs|]. split; [vm_compute; reflexivity|].
  rewrite Hn. apply Hnd. vm_compute.
  repeat (apply NoDup_cons; [simpl; intuition discriminate|]); apply NoDup_nil.
Defined.
